(** * Pareto-front identification ([identify_pareto] of [app.py])

    A shallow embedding of the static method
    [ParetoPlotGeneratorApp.identify_pareto] and the proofs of its contract.

    The method receives a reference to an [n x d] NumPy array of [float64]
    scores and two truth values, allocates a boolean array with [np.ones],
    clears the entries of the dominated rows in two nested [for] loops with
    [break], and returns the reference to the boolean array.  The embedding
    keeps that shape: objects live in a store, the method is a computation in
    a state-and-exception monad over the store, and [float64] values are the
    IEEE 754 values of the standard library's [spec_float], [NaN] included. *)

From Stdlib Require Import ZArith Bool Relations.
From Stdlib.Floats Require Import SpecFloat.
From stdpp Require Import base option list gmap strings.

(** ** [float64] and its comparisons *)

Module F64.

(** A NumPy [float64] scalar.  Only comparisons are applied to the scores,
    and [SFcompare] is the IEEE 754 comparison: every comparison with a
    [NaN] operand is false, and the two zeros are equal. *)
Abbreviation float64 := spec_float (only parsing).

Definition prec : Z := 53%Z.
Definition emax : Z := 1024%Z.

(** The [float64] nearest to the integer [z]; exact up to [2^53]. *)
Definition of_Z (z : Z) : float64 := binary_normalize prec emax z 0%Z false.

Definition nan : float64 := S754_nan.
Definition neg_zero : float64 := S754_zero true.

Definition is_nan (a : float64) : bool :=
  match a with S754_nan => true | _ => false end.

(** [a < b], [a <= b], [a > b], [a >= b], [a == b] as NumPy evaluates them
    on two [float64] scalars. *)
Definition lt (a b : float64) : bool := SFltb a b.
Definition le (a b : float64) : bool := SFleb a b.
Definition gt (a b : float64) : bool := SFltb b a.
Definition ge (a b : float64) : bool := SFleb b a.
Definition eq (a b : float64) : bool := SFeqb a b.

End F64.

Abbreviation float64 := spec_float (only parsing).

(** *** The order behind [SFcompare] *)

(** [SFcompare] on two finite values of one sign is the lexicographic
    comparison of exponent and mantissa. *)
Definition lex_compare (e1 : Z) (m1 : positive) (e2 : Z) (m2 : positive) : comparison :=
  match Z.compare e1 e2 with
  | Lt => Lt
  | Gt => Gt
  | Eq => Pos.compare_cont Eq m1 m2
  end.

(** The position of a value on the extended real line, as a key compared
    lexicographically: sign class first, then exponent, then mantissa. *)
Definition key (a : float64) : option (Z * Z * Z) :=
  match a with
  | S754_nan => None
  | S754_infinity true => Some (-2, 0, 0)%Z
  | S754_finite true m e => Some (-1, - e, - Z.pos m)%Z
  | S754_zero _ => Some (0, 0, 0)%Z
  | S754_finite false m e => Some (1, e, Z.pos m)%Z
  | S754_infinity false => Some (2, 0, 0)%Z
  end.

Definition key_lt (k1 k2 : Z * Z * Z) : Prop :=
  let '(s1, e1, m1) := k1 in
  let '(s2, e2, m2) := k2 in
  (s1 < s2 \/ (s1 = s2 /\ (e1 < e2 \/ (e1 = e2 /\ m1 < m2))))%Z.

(** ** Objects, references and the store *)

(** The two kinds of array the method touches: the two-dimensional [float64]
    array of scores, given by its rows, and the one-dimensional boolean
    array it builds.  The rows of one array all have the same length
    ([rectangular]). *)
Inductive pyobj : Type :=
| NdFloat (rows : list (list float64))
| NdBool (cells : list bool).

Definition rectangular (d : nat) (rows : list (list float64)) : Prop :=
  Forall (fun r => length r = d) rows.

(** References are addresses; the store maps the live ones to objects. *)
Abbreviation loc := positive (only parsing).
Abbreviation store := (gmap positive pyobj) (only parsing).

(** The exceptions of the model: [IndexError] for a subscript out of range,
    [TypeError] for a reference that does not hold an array of the kind the
    operation expects. *)
Inductive exn : Type := IndexError | TypeError.

Inductive result (A : Type) : Type :=
| Ok (a : A)
| Raise (e : exn).
Arguments Ok {A} a.
Arguments Raise {A} e.

(** A computation reads and updates the store and either returns a value
    with the new store or propagates an exception to its caller. *)
Definition M (A : Type) : Type := store -> result (A * store).

Definition ret {A : Type} (a : A) : M A := fun s => Ok (a, s).

Definition bind {A B : Type} (c : M A) (k : A -> M B) : M B :=
  fun s => match c s with
           | Ok (a, s') => k a s'
           | Raise e => Raise e
           end.

Definition raise {A : Type} (e : exn) : M A := fun _ => Raise e.

Declare Scope py_scope.
Delimit Scope py_scope with py.
Notation "x <- c ;; k" := (bind c (fun x => k))
  (at level 100, c at next level, right associativity) : py_scope.
Notation "c ;; k" := (bind c (fun _ => k))
  (at level 100, right associativity) : py_scope.
Open Scope py_scope.

(** [np.ones(n, dtype=bool)]: a new array of [n] [True] at an address that
    is not live. *)
Definition np_ones (n : nat) : M loc :=
  fun s => let l := fresh (dom s) in
           Ok (l, <[l := NdBool (replicate n true)]> s).

(** [a.shape[0]]: the number of rows. *)
Definition shape0 (a : loc) : M nat :=
  fun s => match s !! a with
           | Some (NdFloat rows) => Ok (length rows, s)
           | _ => Raise TypeError
           end.

(** [a[j]]: row [j]. *)
Definition getrow (a : loc) (j : nat) : M (list float64) :=
  fun s => match s !! a with
           | Some (NdFloat rows) =>
               match rows !! j with
               | Some r => Ok (r, s)
               | None => Raise IndexError
               end
           | _ => Raise TypeError
           end.

(** [r[k]]: element [k] of a row. *)
Definition getitem (r : list float64) (k : nat) : M float64 :=
  match r !! k with
  | Some x => ret x
  | None => raise IndexError
  end.

(** [m[i] = b] on a boolean array, in place. *)
Definition setitem (m : loc) (i : nat) (b : bool) : M unit :=
  fun s => match s !! m with
           | Some (NdBool cells) =>
               if decide (i < length cells)
               then Ok (tt, <[m := NdBool (<[i := b]> cells)]> s)
               else Raise IndexError
           | _ => Raise TypeError
           end.

(** Elementwise comparison of two rows of one array, [r1 >= r2] and the
    like: an array of booleans. *)
Definition rows_ge (r1 r2 : list float64) : list bool := zip_with F64.ge r1 r2.
Definition rows_gt (r1 r2 : list float64) : list bool := zip_with F64.gt r1 r2.
Definition rows_le (r1 r2 : list float64) : list bool := zip_with F64.le r1 r2.
Definition rows_lt (r1 r2 : list float64) : list bool := zip_with F64.lt r1 r2.

(** Python's [all] and [any]. *)
Definition all (bs : list bool) : bool := forallb id bs.
Definition any (bs : list bool) : bool := existsb id bs.

(** [c1 and c2]: the right operand is evaluated only when the left one is
    true. *)
Definition and_then (c1 c2 : M bool) : M bool :=
  b <- c1 ;; if b then c2 else ret false.
Notation "c1 &&& c2" := (and_then c1 c2) : py_scope.

(** [for x in xs: body] where the body may [break]. *)
Inductive ctl : Type := Next | Break.

Fixpoint for_in (xs : list nat) (body : nat -> M ctl) : M unit :=
  match xs with
  | [] => ret tt
  | x :: xs' =>
      c <- body x ;;
      match c with
      | Next => for_in xs' body
      | Break => ret tt
      end
  end.

Definition range (n : nat) : list nat := seq 0 n.

(** ** The method *)

(** The [if] conditions of the four branches, for rows [i] and [j]. *)

(** [all(scores[j] >= scores[i]) and any(scores[j] > scores[i]) and i != j] *)
Definition test_max_max (scores : loc) (i j : nat) : M bool :=
  (sj <- getrow scores j ;; si <- getrow scores i ;; ret (all (rows_ge sj si)))
  &&& ((sj <- getrow scores j ;; si <- getrow scores i ;; ret (any (rows_gt sj si)))
       &&& ret (bool_decide (i ≠ j))).

(** [scores[j][0] >= scores[i][0] and scores[j][1] < scores[i][1] and i != j] *)
Definition test_max_min (scores : loc) (i j : nat) : M bool :=
  (sj <- getrow scores j ;; xj <- getitem sj 0 ;;
   si <- getrow scores i ;; xi <- getitem si 0 ;; ret (F64.ge xj xi))
  &&& ((sj <- getrow scores j ;; yj <- getitem sj 1 ;;
        si <- getrow scores i ;; yi <- getitem si 1 ;; ret (F64.lt yj yi))
       &&& ret (bool_decide (i ≠ j))).

(** [scores[j][0] < scores[i][0] and scores[j][1] >= scores[i][1] and i != j] *)
Definition test_min_max (scores : loc) (i j : nat) : M bool :=
  (sj <- getrow scores j ;; xj <- getitem sj 0 ;;
   si <- getrow scores i ;; xi <- getitem si 0 ;; ret (F64.lt xj xi))
  &&& ((sj <- getrow scores j ;; yj <- getitem sj 1 ;;
        si <- getrow scores i ;; yi <- getitem si 1 ;; ret (F64.ge yj yi))
       &&& ret (bool_decide (i ≠ j))).

(** [all(scores[j] <= scores[i]) and any(scores[j] < scores[i]) and i != j] *)
Definition test_min_min (scores : loc) (i j : nat) : M bool :=
  (sj <- getrow scores j ;; si <- getrow scores i ;; ret (all (rows_le sj si)))
  &&& ((sj <- getrow scores j ;; si <- getrow scores i ;; ret (any (rows_lt sj si)))
       &&& ret (bool_decide (i ≠ j))).

(** The nested loops, which the four branches share up to the condition:
<<
    for i in range(scores.shape[0]):
        for j in range(scores.shape[0]):
            if <test i j>:
                is_pareto[i] = False
                break
>> *)
Definition clear_dominated (scores is_pareto : loc)
    (test : nat -> nat -> M bool) : M unit :=
  n <- shape0 scores ;;
  for_in (range n) (fun i =>
    n' <- shape0 scores ;;
    for_in (range n') (fun j =>
      b <- test i j ;;
      if b then setitem is_pareto i false ;; ret Break else ret Next) ;;
    ret Next).

Definition identify_pareto (scores : loc)
    (bigger_is_better_x bigger_is_better_y : bool) : M loc :=
  n <- shape0 scores ;;
  is_pareto <- np_ones n ;;
  (if bigger_is_better_x && bigger_is_better_y then
     clear_dominated scores is_pareto (test_max_max scores)
   else if bigger_is_better_x then
     clear_dominated scores is_pareto (test_max_min scores)
   else if bigger_is_better_y then
     clear_dominated scores is_pareto (test_min_max scores)
   else
     clear_dominated scores is_pareto (test_min_min scores)) ;;
  ret is_pareto.

(** ** Calls on a point set *)

(** A score point [(x, y)], and the directions as the method takes them:
    [bigger_is_better = True] is MAXIMIZE, [False] is MINIMIZE. *)
Abbreviation point := (float64 * float64)%type (only parsing).
Abbreviation MAXIMIZE := true (only parsing).
Abbreviation MINIMIZE := false (only parsing).

(** [np.vstack((x, y)).T] for the two columns of a point set: one row
    [[x_i, y_i]] per point. *)
Definition scores_of (pts : list point) : list (list float64) :=
  map (fun p => [p.1; p.2]) pts.

(** The mask a call returns: the content, in the store the call leaves, of
    the array the returned reference points to. *)
Definition returned_mask (s : store) (scores : loc)
    (dir_x dir_y : bool) : result (list bool) :=
  match identify_pareto scores dir_x dir_y s with
  | Ok (l, s') =>
      match s' !! l with
      | Some (NdBool mask) => Ok mask
      | _ => Raise TypeError
      end
  | Raise e => Raise e
  end.

(** [classify(points, dir_x, dir_y)]: the call on a store that holds the
    scores of [pts] and nothing else. *)
Definition classify (pts : list point) (dir_x dir_y : bool) : result (list bool) :=
  returned_mask {[ 1%positive := NdFloat (scores_of pts) ]} 1%positive dir_x dir_y.

Definition pt (x y : Z) : point := (F64.of_Z x, F64.of_Z y).

(** ** What the loops compute

    The dominance test of the branch chosen by the two flags, on two rows
    of at least two columns, and the mask the loops leave: entry [i] is
    cleared exactly when some row [j], [j <> i], passes the test against
    row [i]. *)
Definition dominates (dir_x dir_y : bool) (rj ri : list float64) : bool :=
  if dir_x && dir_y then all (rows_ge rj ri) && any (rows_gt rj ri)
  else if dir_x then
    match rj, ri with
    | xj :: yj :: _, xi :: yi :: _ => F64.ge xj xi && F64.lt yj yi
    | _, _ => false
    end
  else if dir_y then
    match rj, ri with
    | xj :: yj :: _, xi :: yi :: _ => F64.lt xj xi && F64.ge yj yi
    | _, _ => false
    end
  else all (rows_le rj ri) && any (rows_lt rj ri).

Definition hit (d : list float64 -> list float64 -> bool)
    (rows : list (list float64)) (i j : nat) : bool :=
  match rows !! j, rows !! i with
  | Some rj, Some ri => d rj ri && bool_decide (i ≠ j)
  | _, _ => false
  end.

Definition clear_if_hit (d : list float64 -> list float64 -> bool)
    (rows : list (list float64)) (mask : list bool) (i : nat) : list bool :=
  if existsb (hit d rows i) (range (length rows)) then <[i := false]> mask else mask.

Definition front (d : list float64 -> list float64 -> bool)
    (rows : list (list float64)) : list bool :=
  map (fun i => negb (existsb (hit d rows i) (range (length rows))))
      (range (length rows)).

(** For a call on the store [s0]: the address [np.ones] picks, and the
    store while the loops run, which is [s0] plus the mask under
    construction. *)
Definition mask_loc (s0 : store) : loc := fresh (dom s0).
Definition with_mask (s0 : store) (mask : list bool) : store :=
  <[mask_loc s0 := NdBool mask]> s0.

(** ** The contract, in the specification's words *)

(** "Point [j] dominates point [i]" under each direction pair. *)
Definition dominates_max_max (pj pi : point) : Prop :=
  F64.ge pj.1 pi.1 = true /\ F64.ge pj.2 pi.2 = true /\
  (F64.gt pj.1 pi.1 = true \/ F64.gt pj.2 pi.2 = true).

Definition dominates_min_min (pj pi : point) : Prop :=
  F64.le pj.1 pi.1 = true /\ F64.le pj.2 pi.2 = true /\
  (F64.lt pj.1 pi.1 = true \/ F64.lt pj.2 pi.2 = true).

Definition dominates_max_min (pj pi : point) : Prop :=
  F64.ge pj.1 pi.1 = true /\ F64.lt pj.2 pi.2 = true.

Definition dominates_min_max (pj pi : point) : Prop :=
  F64.lt pj.1 pi.1 = true /\ F64.ge pj.2 pi.2 = true.

Definition spec_dominates (dir_x dir_y : bool) : point -> point -> Prop :=
  match dir_x, dir_y with
  | true, true => dominates_max_max
  | true, false => dominates_max_min
  | false, true => dominates_min_max
  | false, false => dominates_min_min
  end.

(** Point [i] of [pts], with value [pi], is on the front of the relation
    [R]: no other index holds a point that dominates it. *)
Definition non_dominated (R : point -> point -> Prop)
    (pts : list point) (i : nat) (pi : point) : Prop :=
  forall j pj, j ≠ i -> pts !! j = Some pj -> ~ R pj pi.

(** [mask] is the front of [pts] under [R]: parallel to the input, and
    [true] exactly at the non-dominated indices. *)
Definition is_front_mask (R : point -> point -> Prop)
    (pts : list point) (mask : list bool) : Prop :=
  length mask = length pts /\
  forall i pi, pts !! i = Some pi ->
    exists b, mask !! i = Some b /\ (b = true <-> non_dominated R pts i pi).

(** Exchanging the two coordinates of a point. *)
Definition swap_xy (p : point) : point := (p.2, p.1).

(** Two points are tied when they are the same pair of values or compare
    equal ([==]) on both axes. *)
Definition tied (p q : point) : Prop :=
  p = q \/ (F64.eq p.1 q.1 = true /\ F64.eq p.2 q.2 = true).

Definition no_nan (p : point) : Prop :=
  F64.is_nan p.1 = false /\ F64.is_nan p.2 = false.

(** For a mixed direction pair with [dir_x = dx] and [dir_y = negb dx]: the
    coordinate of a point on the MAXIMIZE axis and on the MINIMIZE axis. *)
Definition on_max_axis (dx : bool) (p : point) : float64 := if dx then p.1 else p.2.
Definition on_min_axis (dx : bool) (p : point) : float64 := if dx then p.2 else p.1.

(** Sample inputs: the three points of the specification's example, and a
    store that holds their scores at address 1. *)
Definition sample_points : list point := [pt 1 2; pt 2 1; pt 0 0].
Definition sample_store : store :=
  {[ 1%positive := NdFloat (scores_of sample_points) ]}.

(** Two points tied on the y axis, the second better on x. *)
Definition tied_on_y : list point := [pt 1 1; pt 2 1].

(** Arrays that are not [n x 2]: three columns, and one column. *)
Definition three_columns : list (list float64) :=
  [[F64.of_Z 1; F64.of_Z 2; F64.of_Z 3]; [F64.of_Z 4; F64.of_Z 5; F64.of_Z 6]].
Definition one_column : list (list float64) := [[F64.of_Z 1]; [F64.of_Z 2]].

(** ** Further notions for the method on general arrays *)

(** The test of the branch the two flags select. *)
Definition test_of (dir_x dir_y : bool) (scores : loc) : nat -> nat -> M bool :=
  if dir_x && dir_y then test_max_max scores
  else if dir_x then test_max_min scores
  else if dir_y then test_min_max scores
  else test_min_min scores.

(** Row [rj] dominates row [ri] in every column count, for the pure pairs:
    at least as good in each column and strictly better in one.  [dir] is
    the common direction of the axes. *)
Definition row_dominates (dir : bool) (rj ri : list float64) : Prop :=
  (forall k a b, rj !! k = Some a -> ri !! k = Some b ->
     (if dir then F64.ge a b else F64.le a b) = true) /\
  (exists k a b, rj !! k = Some a /\ ri !! k = Some b /\
     (if dir then F64.gt a b else F64.lt a b) = true).

(** The first comparison of the mixed tests, on column 0: [>=] when x is
    maximised, [<] when it is minimised. *)
Definition first_comparison (dir_x : bool) (a b : float64) : bool :=
  if dir_x then F64.ge a b else F64.lt a b.

(** The first comparison of rows [i] and [j] of a one-column array. *)
Definition first_hit (dir_x : bool) (rows : list (list float64)) (i j : nat) : bool :=
  match rows !! j, rows !! i with
  | Some [b], Some [a] => first_comparison dir_x b a
  | _, _ => false
  end.

(** Boolean-mask indexing, [xs[mask]]: the elements of [xs] at the
    positions where [mask] is true, in order. *)
Fixpoint select {A : Type} (mask : list bool) (xs : list A) : list A :=
  match mask, xs with
  | b :: mask', x :: xs' => if b then x :: select mask' xs' else select mask' xs'
  | _, _ => []
  end.

(** Further sample inputs: two points that differ in the sign of a zero,
    and a point with a [NaN] coordinate among ordinary ones. *)
Definition signed_zero_points : list point :=
  [(F64.of_Z 0, F64.of_Z 1); (F64.neg_zero, F64.of_Z 1)].
Definition points_with_nan : list point :=
  [(F64.nan, F64.of_Z 0); pt 2 2; pt 1 1].

(** ** The caller: [create_scatter_plot] *)

(** The data frame is a map from column names to columns of [float64]
    values; the columns of one frame have one length. *)

(** What the method hands to [ax.scatter]: the two coordinate series and
    the label. *)
Record scatter_series : Type := Series {
  series_x : list float64;
  series_y : list float64;
  series_label : string
}.

(** The exceptions of the caller: a column the frame lacks, columns of
    different lengths stacked, and the exceptions of the array model. *)
Inductive plot_error : Type :=
| KeyError (column : string)
| ValueError
| ArrayError (e : exn).

Inductive outcome (A : Type) : Type :=
| Done (a : A)
| Failed (e : plot_error).
Arguments Done {A} a.
Arguments Failed {A} e.

Definition P (A : Type) : Type := store -> outcome (A * store).

Definition pret {A : Type} (a : A) : P A := fun s => Done (a, s).

Definition pbind {A B : Type} (c : P A) (k : A -> P B) : P B :=
  fun s => match c s with
           | Done (a, s') => k a s'
           | Failed e => Failed e
           end.

(** A computation of the array model run inside the caller. *)
Definition lift {A : Type} (c : M A) : P A :=
  fun s => match c s with
           | Ok (a, s') => Done (a, s')
           | Raise e => Failed (ArrayError e)
           end.

Notation "x <~ c ;; k" := (pbind c (fun x => k))
  (at level 100, c at next level, right associativity) : py_scope.

(** [self.dataframe[column]] *)
Definition frame_column (dataframe : gmap string (list float64)) (column : string)
    : P (list float64) :=
  match dataframe !! column with
  | Some col => pret col
  | None => fun _ => Failed (KeyError column)
  end.

(** [np.vstack((x, y)).T]: a new array with one row [[x_i, y_i]] per
    position; the two series must have one length. *)
Definition np_vstack_T (x y : list float64) : P loc :=
  fun s => if decide (length x = length y)
           then let l := fresh (dom s) in
                Done (l, <[l := NdFloat (zip_with (fun a b => [a; b]) x y)]> s)
           else Failed ValueError.

(** [a.copy()]: a new array with the rows of [a]. *)
Definition np_copy (a : loc) : M loc :=
  fun s => match s !! a with
           | Some (NdFloat rows) =>
               let l := fresh (dom s) in Ok (l, <[l := NdFloat rows]> s)
           | _ => Raise TypeError
           end.

(** [x[mask]] for a series [x] and a boolean array [mask] of its length. *)
Definition series_getitem (x : list float64) (mask : loc) : M (list float64) :=
  fun s => match s !! mask with
           | Some (NdBool cells) =>
               if decide (length cells = length x)
               then Ok (select cells x, s)
               else Raise IndexError
           | _ => Raise TypeError
           end.

Definition excluded_columns : list string :=
  ["index"; "Ru1"; "Ru2"; "Ru3"; "v1"; "v2"; "v3"; "v4"; "v5";
   "boundrary area (m2)"; "length (m)"; "width (m)"].

Definition wall_rating : string := "robot viability rating [wall panels] (0 to 1)".
Definition roof_rating : string := "robot viability rating [roof panels] (0 to 1)".

(** [column in names] *)
Definition column_in (column : string) (names : list string) : bool :=
  bool_decide (column ∈ names).

(** The data path of [create_scatter_plot]: the series it scatters, in
    call order.  The figure, the canvas and the event binding are the
    plotting library's and are left out. *)
Definition create_scatter_plot (dataframe : gmap string (list float64))
    (column_x column_y : string) : P (list scatter_series) :=
  if column_in column_x excluded_columns || column_in column_y excluded_columns then
    x <~ frame_column dataframe column_x ;;
    y <~ frame_column dataframe column_y ;;
    pret [Series x y "data points"]
  else
    x <~ frame_column dataframe column_x ;;
    y <~ frame_column dataframe column_y ;;
    scores <~ np_vstack_T x y ;;
    pareto_front <~
      (if column_in column_x [wall_rating; roof_rating]
          && column_in column_y [wall_rating; wall_rating] then
         scores' <~ lift (np_copy scores) ;; lift (identify_pareto scores' true true)
       else if column_in column_x [wall_rating; roof_rating] then
         scores' <~ lift (np_copy scores) ;; lift (identify_pareto scores' true false)
       else if column_in column_y [wall_rating; roof_rating] then
         scores' <~ lift (np_copy scores) ;; lift (identify_pareto scores' false true)
       else
         scores' <~ lift (np_copy scores) ;; lift (identify_pareto scores' false false)) ;;
    front_x <~ lift (series_getitem x pareto_front) ;;
    front_y <~ lift (series_getitem y pareto_front) ;;
    pret [Series x y "data points"; Series front_x front_y "pareto front"].

(** The directions the chain of conditions selects for two plotted
    columns: x is maximised when it is a rating; y is maximised when it is
    the wall rating, or when it is a rating and x is not. *)
Definition plot_dir_x (column_x : string) : bool :=
  column_in column_x [wall_rating; roof_rating].
Definition plot_dir_y (column_x column_y : string) : bool :=
  if column_in column_x [wall_rating; roof_rating]
  then column_in column_y [wall_rating; wall_rating]
  else column_in column_y [wall_rating; roof_rating].

(** A sample frame with the two ratings and a cost column. *)
Definition sample_frame : gmap string (list float64) :=
  {[ wall_rating := [F64.of_Z 1; F64.of_Z 2; F64.of_Z 0];
     roof_rating := [F64.of_Z 2; F64.of_Z 1; F64.of_Z 0];
     "embodied carbon (kgCO2e)" := [F64.of_Z 5; F64.of_Z 3; F64.of_Z 4] ]}.

(** ** Markers and highlights *)

(** [self.marker_list] *)
Definition marker_list : list string := ["^"; "s"; "o"; "P"; "X"; "v"].

(** [itertools.cycle]: the items not yet yielded in the current pass, and
    the saved items the next pass starts from. *)
Record cycle : Type := Cycle {
  pending : list string;
  saved : list string
}.

(** [itertools.cycle(items)] *)
Definition itertools_cycle (items : list string) : cycle := Cycle items items.

(** [next(c)]: the item and the advanced iterator; [None] is
    [StopIteration], which only a cycle over nothing raises. *)
Definition next (c : cycle) : option (string * cycle) :=
  match pending c with
  | x :: rest => Some (x, Cycle rest (saved c))
  | [] =>
      match saved c with
      | x :: rest => Some (x, Cycle rest (saved c))
      | [] => None
      end
  end.

(** The item the call number [n] of [next] returns, counting from 0. *)
Fixpoint nth_next (n : nat) (c : cycle) : option string :=
  match next c with
  | None => None
  | Some (x, c') =>
      match n with
      | 0 => Some x
      | S n' => nth_next n' c'
      end
  end.

(** The dictionary [symbols] of [marker_to_unicode]. *)
Definition symbols : gmap string string :=
  {[ "^" := "▲"; "s" := "■"; "o" := "●"; "P" := "✚"; "X" := "✖"; "v" := "▼" ]}.

(** [symbols.get(marker, '?')] *)
Definition marker_to_unicode (marker : string) : string :=
  default "?" (symbols !! marker).

(** A line drawn by [ax.plot(x, y, marker, ...)]. *)
Record line2d : Type := Line2D {
  line_x : float64;
  line_y : float64;
  line_marker : string
}.

(** The part of the application state the highlights live in: the lines on
    [self.ax], by identity; the dictionary [self.highlighted_points] from
    the index of a design to its line; and the number of the next line
    object, so that every line [ax.plot] creates has an identity no earlier
    line had. *)
Record highlights : Type := Highlights {
  ax_lines : gmap positive line2d;
  highlighted_points : gmap Z positive;
  next_line : positive
}.

(** After [__init__] and a plot: no line, no highlighted point. *)
Definition no_highlights : highlights := Highlights ∅ ∅ 1%positive.

(** The state change of [highlight_point]:
<<
    highlight, = self.ax.plot(x, y, marker, ...)
    self.highlighted_points[index] = highlight
>>
    The rest of the method draws the popup and leaves this state alone. *)
Definition highlight_point (x y : float64) (marker : string) (index : Z)
    (st : highlights) : highlights :=
  let highlight := next_line st in
  Highlights (<[highlight := Line2D x y marker]> (ax_lines st))
             (<[index := highlight]> (highlighted_points st))
             (Pos.succ (next_line st)).

(** [remove_highlight]:
<<
    if index in self.highlighted_points:
        self.highlighted_points[index].remove()
        del self.highlighted_points[index]
>>
    [None] stands for the exception [Line2D.remove] raises for a line that
    is not on the axes. *)
Definition remove_highlight (index : Z) (st : highlights) : option highlights :=
  match highlighted_points st !! index with
  | Some line =>
      match ax_lines st !! line with
      | Some _ =>
          Some (Highlights (delete line (ax_lines st))
                           (delete index (highlighted_points st))
                           (next_line st))
      | None => None
      end
  | None => Some st
  end.

(** What happens to the highlights during a session: a click on a data
    point ends in [highlight_point]; closing a popup ends in
    [remove_highlight]. *)
Inductive gui_event : Type :=
| Clicked (x y : float64) (marker : string) (index : Z)
| PopupClosed (index : Z).

Fixpoint run_events (events : list gui_event) (st : highlights) : option highlights :=
  match events with
  | [] => Some st
  | Clicked x y marker index :: events' =>
      run_events events' (highlight_point x y marker index st)
  | PopupClosed index :: events' =>
      match remove_highlight index st with
      | Some st' => run_events events' st'
      | None => None
      end
  end.

(** The highlights are consistent when every tracked line is on the axes,
    no line is tracked under two indices, and the lines on the axes were
    created before [next_line]. *)
Definition consistent (st : highlights) : Prop :=
  (forall i l, highlighted_points st !! i = Some l -> is_Some (ax_lines st !! l)) /\
  (forall i j l, highlighted_points st !! i = Some l ->
                 highlighted_points st !! j = Some l -> i = j) /\
  (forall l, is_Some (ax_lines st !! l) -> (l < next_line st)%positive).

(** A line that is on the axes but tracked under no index. *)
Definition orphan (old : positive) (ln : line2d) (st : highlights) : Prop :=
  ax_lines st !! old = Some ln /\
  (forall i, highlighted_points st !! i ≠ Some old).

(** The state after one click on the design with index 7. *)
Definition once_highlighted : highlights :=
  highlight_point (F64.of_Z 1) (F64.of_Z 2) "^" 7 no_highlights.

(** ** From the clicked row to the popup's row *)



(** *** The order facts the dominance rules rest on

    They hold for every [float64], [NaN] included: a true comparison has no
    [NaN] operand, and on the other values [SFcompare] is a total preorder. *)

Section F64_order.

Implicit Types a b c : float64.

Lemma lex_compare_spec e1 m1 e2 m2 :
  match lex_compare e1 m1 e2 m2 with
  | Lt => (e1 < e2)%Z \/ (e1 = e2 /\ (m1 < m2)%positive)
  | Eq => e1 = e2 /\ m1 = m2
  | Gt => (e2 < e1)%Z \/ (e1 = e2 /\ (m2 < m1)%positive)
  end.
Proof.
  unfold lex_compare.
  change (Pos.compare_cont Eq m1 m2) with (Pos.compare m1 m2).
  destruct (Z.compare_spec e1 e2) as [He|He|He]; auto.
  destruct (Pos.compare_spec m1 m2) as [Hm|Hm|Hm]; auto.
Qed.

Lemma key_lt_irrefl k : ~ key_lt k k.
Proof. destruct k as [[s e] m]; unfold key_lt; lia. Qed.

Lemma key_lt_trans k1 k2 k3 : key_lt k1 k2 -> key_lt k2 k3 -> key_lt k1 k3.
Proof.
  destruct k1 as [[s1 e1] m1], k2 as [[s2 e2] m2], k3 as [[s3 e3] m3].
  unfold key_lt; lia.
Qed.

Lemma SFcompare_key a b :
  match SFcompare a b with
  | None => key a = None \/ key b = None
  | Some Lt => exists ka kb, key a = Some ka /\ key b = Some kb /\ key_lt ka kb
  | Some Eq => exists k, key a = Some k /\ key b = Some k
  | Some Gt => exists ka kb, key a = Some ka /\ key b = Some kb /\ key_lt kb ka
  end.
Proof.
  destruct a as [[]|[]| |[] ma ea], b as [[]|[]| |[] mb eb]; simpl; eauto;
    try (eexists _, _; split; [reflexivity|split; [reflexivity|simpl; lia]]).
  - replace (match (ea ?= eb)%Z with
             | Eq => CompOpp (Pos.compare_cont Eq ma mb)
             | Lt => Gt
             | Gt => Lt
             end) with (CompOpp (lex_compare ea ma eb mb))
      by (unfold lex_compare; destruct (ea ?= eb)%Z; reflexivity).
    pose proof (lex_compare_spec ea ma eb mb) as H.
    destruct (lex_compare ea ma eb mb); simpl.
    + destruct H as [-> ->]; eauto.
    + eexists _, _; split; [reflexivity|split; [reflexivity|simpl; lia]].
    + eexists _, _; split; [reflexivity|split; [reflexivity|simpl; lia]].
  - fold (lex_compare ea ma eb mb).
    pose proof (lex_compare_spec ea ma eb mb) as H.
    destruct (lex_compare ea ma eb mb); simpl.
    + destruct H as [-> ->]; eauto.
    + eexists _, _; split; [reflexivity|split; [reflexivity|simpl; lia]].
    + eexists _, _; split; [reflexivity|split; [reflexivity|simpl; lia]].
Qed.

(** [a < a] is false, for [NaN] too. *)
Lemma lt_irrefl a : F64.lt a a = false.
Proof.
  unfold F64.lt, SFltb. pose proof (SFcompare_key a a) as H.
  destruct (SFcompare a a) as [[]|]; try reflexivity.
  destruct H as (ka & kb & Ha & Hb & Hlt).
  rewrite Ha in Hb; injection Hb as <-. destruct (key_lt_irrefl _ Hlt).
Qed.

Lemma lt_key a b :
  F64.lt a b = true <-> exists ka kb, key a = Some ka /\ key b = Some kb /\ key_lt ka kb.
Proof.
  unfold F64.lt, SFltb. pose proof (SFcompare_key a b) as H.
  destruct (SFcompare a b) as [[]|]; split; try discriminate; auto.
  - intros (ka & kb & Ha & Hb & Hlt). destruct H as (k & Ha' & Hb').
    rewrite Ha in Ha'; rewrite Hb in Hb'.
    injection Ha' as <-; injection Hb' as <-. destruct (key_lt_irrefl _ Hlt).
  - intros (ka & kb & Ha & Hb & Hlt). destruct H as (ka' & kb' & Ha' & Hb' & Hgt).
    rewrite Ha in Ha'; rewrite Hb in Hb'.
    injection Ha' as <-; injection Hb' as <-.
    destruct (key_lt_irrefl _ (key_lt_trans _ _ _ Hlt Hgt)).
  - intros (ka & kb & Ha & Hb & _). destruct H; congruence.
Qed.

Lemma le_key a b :
  F64.le a b = true <->
  exists ka kb, key a = Some ka /\ key b = Some kb /\ (key_lt ka kb \/ ka = kb).
Proof.
  unfold F64.le, SFleb. pose proof (SFcompare_key a b) as H.
  destruct (SFcompare a b) as [[]|]; split; try discriminate; auto.
  - intros _. destruct H as (k & Ha & Hb). eauto 8.
  - intros _. destruct H as (ka & kb & Ha & Hb & Hlt). eauto 8.
  - intros (ka & kb & Ha & Hb & Hle). destruct H as (ka' & kb' & Ha' & Hb' & Hgt).
    rewrite Ha in Ha'; rewrite Hb in Hb'.
    injection Ha' as <-; injection Hb' as <-.
    destruct Hle as [Hlt| ->].
    + destruct (key_lt_irrefl _ (key_lt_trans _ _ _ Hlt Hgt)).
    + destruct (key_lt_irrefl _ Hgt).
  - intros (ka & kb & Ha & Hb & _). destruct H; congruence.
Qed.

Lemma eq_key a b :
  F64.eq a b = true <-> exists k, key a = Some k /\ key b = Some k.
Proof.
  unfold F64.eq, SFeqb. pose proof (SFcompare_key a b) as H.
  destruct (SFcompare a b) as [[]|]; split; try discriminate; auto.
  - intros (k & Ha & Hb). destruct H as (ka' & kb' & Ha' & Hb' & Hlt).
    rewrite Ha in Ha'; rewrite Hb in Hb'.
    injection Ha' as <-; injection Hb' as <-. destruct (key_lt_irrefl _ Hlt).
  - intros (k & Ha & Hb). destruct H as (ka' & kb' & Ha' & Hb' & Hlt).
    rewrite Ha in Ha'; rewrite Hb in Hb'.
    injection Ha' as <-; injection Hb' as <-. destruct (key_lt_irrefl _ Hlt).
  - intros (k & Ha & Hb). destruct H; congruence.
Qed.

Lemma le_trans a b c : F64.le a b = true -> F64.le b c = true -> F64.le a c = true.
Proof.
  rewrite !le_key. intros (ka & kb & Ha & Hb & Hab) (kb' & kc & Hb' & Hc & Hbc).
  rewrite Hb in Hb'; injection Hb' as <-.
  exists ka, kc. split; [done|]. split; [done|].
  destruct Hab as [Hab| ->]; [|done].
  destruct Hbc as [Hbc| <-]; [|by left].
  left; eapply key_lt_trans; eauto.
Qed.

Lemma lt_le_trans a b c : F64.lt a b = true -> F64.le b c = true -> F64.lt a c = true.
Proof.
  rewrite !lt_key, le_key. intros (ka & kb & Ha & Hb & Hab) (kb' & kc & Hb' & Hc & Hbc).
  rewrite Hb in Hb'; injection Hb' as <-.
  exists ka, kc. split; [done|]. split; [done|].
  destruct Hbc as [Hbc| <-]; [|done].
  eapply key_lt_trans; eauto.
Qed.

Lemma le_lt_trans a b c : F64.le a b = true -> F64.lt b c = true -> F64.lt a c = true.
Proof.
  rewrite !lt_key, le_key. intros (ka & kb & Ha & Hb & Hab) (kb' & kc & Hb' & Hc & Hbc).
  rewrite Hb in Hb'; injection Hb' as <-.
  exists ka, kc. split; [done|]. split; [done|].
  destruct Hab as [Hab| ->]; [|done].
  eapply key_lt_trans; eauto.
Qed.

Lemma lt_le a b : F64.lt a b = true -> F64.le a b = true.
Proof.
  rewrite lt_key, le_key. intros (ka & kb & Ha & Hb & Hab). eauto 8.
Qed.

Lemma lt_trans a b c : F64.lt a b = true -> F64.lt b c = true -> F64.lt a c = true.
Proof. intros H1 H2. eapply lt_le_trans; [exact H1|by apply lt_le]. Qed.

(** Numerically equal values ([==], so also the two zeros) are not ordered
    strictly, in either direction. *)
Lemma eq_not_lt a b : F64.eq a b = true -> F64.lt a b = false /\ F64.lt b a = false.
Proof.
  rewrite eq_key. intros (k & Ha & Hb).
  split; apply not_true_is_false; rewrite lt_key;
    intros (k1 & k2 & H1 & H2 & Hlt); simplify_eq;
    destruct (key_lt_irrefl _ Hlt).
Qed.

End F64_order.
(** ** Running the method *)

Lemma bind_ok {A B : Type} (c : M A) (k : A -> M B) s a s' :
  c s = Ok (a, s') -> bind c k s = k a s'.
Proof. unfold bind; intros ->; reflexivity. Qed.

Lemma bind_bind {A B C : Type} (c : M A) (k1 : A -> M B) (k2 : B -> M C) s :
  bind (bind c k1) k2 s = bind c (fun a => bind (k1 a) k2) s.
Proof. unfold bind. by destruct (c s) as [[a s']|e]. Qed.

(** Clearing, in index order, the entries that satisfy [p]. *)
Lemma foldl_clear_seq (p : nat -> bool) (n k : nat) :
  k <= n ->
  foldl (fun m i => if p i then <[i := false]> m else m) (replicate n true) (seq 0 k)
  = map (fun i => negb (p i)) (seq 0 k) ++ replicate (n - k) true.
Proof.
  induction k as [|k IH]; intros Hk.
  - cbn. by rewrite Nat.sub_0_r.
  - rewrite seq_S, foldl_app, map_app, IH by lia. cbn.
    replace (n - k) with (S (n - S k)) by lia. cbn [replicate].
    rewrite <- app_assoc. cbn.
    destruct (p k); cbn; [|done].
    rewrite insert_app_r_alt by (rewrite length_map, length_seq; lia).
    by rewrite length_map, length_seq, Nat.sub_diag.
Qed.

Section run.

Variable s0 : store.
Variable scores : loc.
Variable rows : list (list float64).
Hypothesis Hscores : s0 !! scores = Some (NdFloat rows).

Lemma mask_loc_fresh : s0 !! mask_loc s0 = None.
Proof. unfold mask_loc. apply not_elem_of_dom, is_fresh. Qed.

Lemma mask_loc_scores : mask_loc s0 ≠ scores.
Proof. intros E. pose proof mask_loc_fresh as H. rewrite E in H. congruence. Qed.

Lemma with_mask_scores mask : with_mask s0 mask !! scores = Some (NdFloat rows).
Proof. unfold with_mask. rewrite lookup_insert_ne; [done|apply mask_loc_scores]. Qed.

Lemma with_mask_mask mask : with_mask s0 mask !! mask_loc s0 = Some (NdBool mask).
Proof. unfold with_mask. apply lookup_insert_eq. Qed.

Lemma shape0_run mask :
  shape0 scores (with_mask s0 mask) = Ok (length rows, with_mask s0 mask).
Proof. unfold shape0. by rewrite with_mask_scores. Qed.

Lemma getrow_run mask j r :
  rows !! j = Some r -> getrow scores j (with_mask s0 mask) = Ok (r, with_mask s0 mask).
Proof. intros H. unfold getrow. by rewrite with_mask_scores, H. Qed.

Lemma setitem_run mask i b :
  i < length mask ->
  setitem (mask_loc s0) i b (with_mask s0 mask) = Ok (tt, with_mask s0 (<[i := b]> mask)).
Proof.
  intros H. unfold setitem. rewrite with_mask_mask.
  rewrite decide_True by done. unfold with_mask. by rewrite insert_insert_eq.
Qed.

(** The loops, for any test that reads the scores only. *)
Section loops.

Variable test : nat -> nat -> M bool.
Variable d : list float64 -> list float64 -> bool.
Hypothesis test_run : forall mask i j ri rj,
  rows !! i = Some ri -> rows !! j = Some rj ->
  test i j (with_mask s0 mask) = Ok (d rj ri && bool_decide (i ≠ j), with_mask s0 mask).

Lemma inner_loop_run i js mask :
  i < length rows -> i < length mask -> Forall (fun j => j < length rows) js ->
  for_in js (fun j =>
      b <- test i j ;;
      if b then setitem (mask_loc s0) i false ;; ret Break else ret Next)
    (with_mask s0 mask)
  = Ok (tt, with_mask s0 (if existsb (hit d rows i) js then <[i := false]> mask else mask)).
Proof.
  intros Hi Hm Hjs. induction Hjs as [|j js Hj _ IH]; [reflexivity|].
  destruct (lookup_lt_is_Some_2 rows i Hi) as [ri Hri].
  destruct (lookup_lt_is_Some_2 rows j Hj) as [rj Hrj].
  cbn [for_in existsb]. unfold hit at 1. rewrite Hrj, Hri.
  rewrite bind_bind. erewrite bind_ok; [|by eapply test_run].
  destruct (d rj ri && bool_decide (i ≠ j)); cbn [orb].
  - rewrite bind_bind. erewrite bind_ok; [|by apply setitem_run]. reflexivity.
  - erewrite bind_ok; [|reflexivity]. apply IH.
Qed.

Lemma outer_loop_run ixs mask :
  length mask = length rows -> Forall (fun i => i < length rows) ixs ->
  for_in ixs (fun i =>
      n' <- shape0 scores ;;
      for_in (range n') (fun j =>
        b <- test i j ;;
        if b then setitem (mask_loc s0) i false ;; ret Break else ret Next) ;;
      ret Next)
    (with_mask s0 mask)
  = Ok (tt, with_mask s0 (foldl (clear_if_hit d rows) mask ixs)).
Proof.
  intros Hm His. revert mask Hm.
  induction His as [|i ixs Hi _ IH]; intros mask Hm; [reflexivity|].
  cbn [for_in foldl].
  rewrite bind_bind. erewrite bind_ok; [|apply shape0_run].
  rewrite bind_bind. erewrite bind_ok.
  2:{ apply inner_loop_run; [done|by rewrite Hm|].
      apply Forall_forall. intros j Hj. unfold range in Hj.
      apply elem_of_seq in Hj. lia. }
  erewrite bind_ok; [|reflexivity].
  apply IH. unfold clear_if_hit. destruct (existsb _ _); [|done].
  by rewrite length_insert.
Qed.

Lemma clear_dominated_run mask :
  length mask = length rows ->
  clear_dominated scores (mask_loc s0) test (with_mask s0 mask)
  = Ok (tt, with_mask s0 (foldl (clear_if_hit d rows) mask (range (length rows)))).
Proof.
  intros Hm. unfold clear_dominated.
  erewrite bind_ok; [|apply shape0_run].
  apply outer_loop_run; [done|].
  apply Forall_forall. intros j Hj. unfold range in Hj.
  apply elem_of_seq in Hj. lia.
Qed.

Lemma clear_all_run :
  clear_dominated scores (mask_loc s0) test (with_mask s0 (replicate (length rows) true))
  = Ok (tt, with_mask s0 (front d rows)).
Proof.
  rewrite clear_dominated_run by apply length_replicate.
  do 2 f_equal. unfold front, range, clear_if_hit.
  rewrite (foldl_clear_seq (fun i => existsb (hit d rows i) (seq 0 (length rows)))) by done.
  by rewrite Nat.sub_diag, app_nil_r.
Qed.

End loops.

Ltac run_reads :=
  repeat first
    [ rewrite bind_bind
    | erewrite bind_ok; [|by eapply getrow_run]
    | erewrite bind_ok; [|reflexivity] ].

Lemma test_max_max_run mask i j ri rj :
  rows !! i = Some ri -> rows !! j = Some rj ->
  test_max_max scores i j (with_mask s0 mask)
  = Ok (dominates true true rj ri && bool_decide (i ≠ j), with_mask s0 mask).
Proof.
  intros Hi Hj. unfold test_max_max, and_then, dominates. cbn [andb].
  run_reads. destruct (all (rows_ge rj ri)); [|reflexivity].
  run_reads. destruct (any (rows_gt rj ri)); reflexivity.
Qed.

Lemma test_min_min_run mask i j ri rj :
  rows !! i = Some ri -> rows !! j = Some rj ->
  test_min_min scores i j (with_mask s0 mask)
  = Ok (dominates false false rj ri && bool_decide (i ≠ j), with_mask s0 mask).
Proof.
  intros Hi Hj. unfold test_min_min, and_then, dominates. cbn [andb].
  run_reads. destruct (all (rows_le rj ri)); [|reflexivity].
  run_reads. destruct (any (rows_lt rj ri)); reflexivity.
Qed.

Hypothesis Hwide : Forall (fun r => 2 <= length r) rows.

Lemma wide_row i r : rows !! i = Some r -> exists x y r', r = x :: y :: r'.
Proof.
  intros H. pose proof (Forall_lookup_1 _ _ _ _ Hwide H) as Hl.
  destruct r as [|x [|y r']]; cbn in Hl; try lia. eauto.
Qed.

Lemma test_max_min_run mask i j ri rj :
  rows !! i = Some ri -> rows !! j = Some rj ->
  test_max_min scores i j (with_mask s0 mask)
  = Ok (dominates true false rj ri && bool_decide (i ≠ j), with_mask s0 mask).
Proof.
  intros Hi Hj.
  destruct (wide_row _ _ Hi) as (xi & yi & ri' & ->).
  destruct (wide_row _ _ Hj) as (xj & yj & rj' & ->).
  unfold test_max_min, and_then, dominates. cbn [andb].
  run_reads. destruct (F64.ge xj xi); [|reflexivity].
  run_reads. destruct (F64.lt yj yi); reflexivity.
Qed.

Lemma test_min_max_run mask i j ri rj :
  rows !! i = Some ri -> rows !! j = Some rj ->
  test_min_max scores i j (with_mask s0 mask)
  = Ok (dominates false true rj ri && bool_decide (i ≠ j), with_mask s0 mask).
Proof.
  intros Hi Hj.
  destruct (wide_row _ _ Hi) as (xi & yi & ri' & ->).
  destruct (wide_row _ _ Hj) as (xj & yj & rj' & ->).
  unfold test_min_max, and_then, dominates. cbn [andb].
  run_reads. destruct (F64.lt xj xi); [|reflexivity].
  run_reads. destruct (F64.ge yj yi); reflexivity.
Qed.

(** The call allocates the mask at [mask_loc], leaves every other object as
    it was, and returns [mask_loc] holding [front]. *)
Lemma identify_pareto_run dir_x dir_y :
  identify_pareto scores dir_x dir_y s0
  = Ok (mask_loc s0, with_mask s0 (front (dominates dir_x dir_y) rows)).
Proof.
  unfold identify_pareto.
  erewrite bind_ok; [|unfold shape0; by rewrite Hscores].
  erewrite bind_ok; [|reflexivity].
  fold (with_mask s0 (replicate (length rows) true)).
  erewrite bind_ok; [reflexivity|].
  destruct dir_x, dir_y; cbn [andb]; apply clear_all_run; intros.
  - by apply test_max_max_run.
  - by apply test_max_min_run.
  - by apply test_min_max_run.
  - by apply test_min_min_run.
Qed.

End run.
(** ** The mask of a point set *)

Lemma front_length d rows : length (front d rows) = length rows.
Proof. unfold front, range. by rewrite length_map, length_seq. Qed.

Lemma front_lookup d rows i :
  i < length rows ->
  front d rows !! i = Some (negb (existsb (hit d rows i) (range (length rows)))).
Proof.
  intros Hi. unfold front, range.
  rewrite list_lookup_fmap, lookup_seq_lt by done. reflexivity.
Qed.

Lemma hit_exists d rows i ri :
  rows !! i = Some ri ->
  existsb (hit d rows i) (range (length rows)) = true <->
  exists j rj, j ≠ i /\ rows !! j = Some rj /\ d rj ri = true.
Proof.
  intros Hi. rewrite existsb_exists. unfold hit, range. split.
  - intros (j & _ & Hj). rewrite Hi in Hj.
    destruct (rows !! j) as [rj|] eqn:Hrj; [|done].
    apply andb_true_iff in Hj as [Hd Hne]. apply bool_decide_eq_true in Hne.
    exists j, rj. auto.
  - intros (j & rj & Hne & Hj & Hd). exists j. split.
    + apply in_seq. apply lookup_lt_Some in Hj. lia.
    + rewrite Hj, Hi, Hd. cbn. apply bool_decide_eq_true. auto.
Qed.

Lemma scores_of_lookup pts i :
  scores_of pts !! i = (fun p : point => [p.1; p.2]) <$> pts !! i.
Proof. unfold scores_of. apply list_lookup_fmap. Qed.

Lemma scores_of_length pts : length (scores_of pts) = length pts.
Proof. unfold scores_of. apply length_map. Qed.

Lemma scores_of_rectangular pts : rectangular 2 (scores_of pts).
Proof. unfold rectangular, scores_of. apply Forall_fmap, Forall_true. done. Qed.

Lemma rectangular_wide d rows :
  rectangular d rows -> 2 <= d -> Forall (fun r => 2 <= length r) rows.
Proof. unfold rectangular. intros H Hd. eapply Forall_impl; [exact H|]. cbn. lia. Qed.

(** On two-column rows the test of each branch is the specification's
    rule for that direction pair. *)
Lemma dominates_spec dir_x dir_y (pj pi : point) :
  dominates dir_x dir_y [pj.1; pj.2] [pi.1; pi.2] = true <->
  spec_dominates dir_x dir_y pj pi.
Proof.
  destruct pj as [xj yj], pi as [xi yi].
  destruct dir_x, dir_y; cbn;
    unfold dominates_max_max, dominates_max_min, dominates_min_max,
      dominates_min_min; cbn;
    rewrite ?andb_true_iff, ?orb_true_iff;
    intuition congruence.
Qed.

Lemma front_is_front_mask dir_x dir_y pts :
  is_front_mask (spec_dominates dir_x dir_y) pts
    (front (dominates dir_x dir_y) (scores_of pts)).
Proof.
  split; [by rewrite front_length, scores_of_length|].
  intros i pi Hi.
  assert (Hrow : scores_of pts !! i = Some [pi.1; pi.2])
    by (by rewrite scores_of_lookup, Hi).
  eexists. split.
  { apply front_lookup. by apply lookup_lt_Some in Hrow. }
  rewrite negb_true_iff, <- not_true_iff_false, (hit_exists _ _ _ _ Hrow).
  unfold non_dominated. split.
  - intros Hno j pj Hne Hj Hdom. apply Hno.
    exists j, [pj.1; pj.2]. split; [done|]. split.
    + by rewrite scores_of_lookup, Hj.
    + by apply dominates_spec.
  - intros Hnd (j & rj & Hne & Hj & Hd).
    rewrite scores_of_lookup in Hj.
    destruct (pts !! j) as [pj|] eqn:Hpj; [|done].
    cbn in Hj. injection Hj as <-.
    apply (Hnd j pj Hne Hpj). by apply dominates_spec.
Qed.

(** A call on a store that holds the scores of [pts]: the reference
    returned is new, the store is extended by the mask and is otherwise as
    it was. *)
Lemma identify_pareto_points s scores pts dir_x dir_y :
  s !! scores = Some (NdFloat (scores_of pts)) ->
  identify_pareto scores dir_x dir_y s
  = Ok (fresh (dom s),
        <[fresh (dom s) := NdBool (front (dominates dir_x dir_y) (scores_of pts))]> s).
Proof.
  intros Hs. apply identify_pareto_run; [done|].
  eapply rectangular_wide; [apply scores_of_rectangular|done].
Qed.

Lemma returned_mask_points s scores pts dir_x dir_y :
  s !! scores = Some (NdFloat (scores_of pts)) ->
  returned_mask s scores dir_x dir_y
  = Ok (front (dominates dir_x dir_y) (scores_of pts)).
Proof.
  intros Hs. unfold returned_mask.
  rewrite (identify_pareto_points _ _ _ _ _ Hs). by rewrite lookup_insert_eq.
Qed.

Lemma classify_front pts dir_x dir_y :
  classify pts dir_x dir_y = Ok (front (dominates dir_x dir_y) (scores_of pts)).
Proof. unfold classify. apply returned_mask_points. apply lookup_singleton_eq. Qed.

(** ** Properties of the dominance rules *)

Lemma front_entry dir_x dir_y pts i pi :
  pts !! i = Some pi ->
  front (dominates dir_x dir_y) (scores_of pts) !! i = Some true <->
  non_dominated (spec_dominates dir_x dir_y) pts i pi.
Proof.
  intros Hi.
  destruct (front_is_front_mask dir_x dir_y pts) as [_ H].
  destruct (H i pi Hi) as (b & Hb & Hiff). rewrite Hb. split.
  - intros [= ->]. by apply Hiff.
  - intros Hnd. f_equal. by apply Hiff.
Qed.

(** No rule lets a point dominate itself, so the test [i != j] of the
    loops never decides an entry. *)
Lemma spec_dominates_irrefl dir_x dir_y p : ~ spec_dominates dir_x dir_y p p.
Proof.
  destruct dir_x, dir_y; cbn;
    unfold dominates_max_max, dominates_max_min, dominates_min_max,
      dominates_min_min, F64.gt;
    rewrite !lt_irrefl; intuition congruence.
Qed.

Lemma spec_dominates_trans dir_x dir_y p q r :
  spec_dominates dir_x dir_y p q -> spec_dominates dir_x dir_y q r ->
  spec_dominates dir_x dir_y p r.
Proof.
  destruct dir_x, dir_y; cbn;
    unfold dominates_max_max, dominates_max_min, dominates_min_max,
      dominates_min_min, F64.gt, F64.ge.
  - intros (Hx & Hy & Hs) (Hx' & Hy' & Hs').
    split; [eapply le_trans; eauto|]. split; [eapply le_trans; eauto|].
    destruct Hs as [Hs|Hs].
    + left. eapply le_lt_trans; eauto.
    + right. eapply le_lt_trans; eauto.
  - intros (Hx & Hy) (Hx' & Hy').
    split; [eapply le_trans; eauto|eapply lt_trans; eauto].
  - intros (Hx & Hy) (Hx' & Hy').
    split; [eapply lt_trans; eauto|eapply le_trans; eauto].
  - intros (Hx & Hy & Hs) (Hx' & Hy' & Hs').
    split; [eapply le_trans; eauto|]. split; [eapply le_trans; eauto|].
    destruct Hs as [Hs|Hs].
    + left. eapply lt_le_trans; eauto.
    + right. eapply lt_le_trans; eauto.
Qed.

(** A chain of dominations is a domination, so no chain is a cycle. *)
Lemma spec_dominates_clos_trans dir_x dir_y p q :
  clos_trans point (spec_dominates dir_x dir_y) p q -> spec_dominates dir_x dir_y p q.
Proof.
  induction 1 as [p q H|p q r _ IH1 _ IH2]; [done|].
  eapply spec_dominates_trans; eauto.
Qed.

Lemma spec_dominates_dec dir_x dir_y p q :
  {spec_dominates dir_x dir_y p q} + {~ spec_dominates dir_x dir_y p q}.
Proof.
  destruct (dominates dir_x dir_y [p.1; p.2] [q.1; q.2]) eqn:E.
  - left. by apply dominates_spec.
  - right. intros H. apply dominates_spec in H. congruence.
Qed.

(** Tied points do not dominate each other under the pure rules. *)
Lemma tied_not_dominates d p q : tied p q -> ~ spec_dominates d d p q.
Proof.
  intros [->|[Hx Hy]]; [apply spec_dominates_irrefl|].
  apply eq_not_lt in Hx as [Hx1 Hx2]. apply eq_not_lt in Hy as [Hy1 Hy2].
  destruct d; cbn; unfold dominates_max_max, dominates_min_min, F64.gt, F64.lt in *;
    intuition congruence.
Qed.

(** A non-empty list has an element that no element dominates, for any
    irreflexive and transitive relation that can be decided. *)
Lemma exists_undominated {A : Type} (R : A -> A -> Prop) (l : list A) :
  (forall x y, {R x y} + {~ R x y}) ->
  (forall x, ~ R x x) ->
  (forall x y z, R x y -> R y z -> R x z) ->
  l ≠ [] ->
  exists m, m ∈ l /\ forall x, x ∈ l -> ~ R x m.
Proof.
  intros Hdec Hirr Htr. induction l as [|a l IH]; [done|]. intros _.
  destruct l as [|b l].
  - exists a. split; [by left|]. intros x Hx.
    apply list_elem_of_singleton in Hx as ->. apply Hirr.
  - destruct IH as (m & Hm & Hmax); [done|].
    destruct (Hdec a m) as [Ham|Ham].
    + exists a. split; [by left|]. intros x Hx Hxa.
      apply elem_of_cons in Hx as [->|Hx]; [by apply (Hirr a)|].
      apply (Hmax x Hx). eapply Htr; eauto.
    + exists m. split; [by right|]. intros x Hx.
      apply elem_of_cons in Hx as [->|Hx]; [done|by apply Hmax].
Qed.

(** Every non-empty point set has a [true] entry, whatever the values. *)
Lemma front_has_true dir_x dir_y pts :
  pts ≠ [] ->
  exists i, front (dominates dir_x dir_y) (scores_of pts) !! i = Some true.
Proof.
  intros Hne.
  destruct (exists_undominated (spec_dominates dir_x dir_y) pts) as (m & Hm & Hmax);
    [apply spec_dominates_dec|apply spec_dominates_irrefl
    |apply spec_dominates_trans|done|].
  apply list_elem_of_lookup in Hm as [i Hi]. exists i.
  apply (front_entry _ _ _ _ _ Hi). intros j pj _ Hj.
  apply Hmax. apply list_elem_of_lookup. eauto.
Qed.

(** The mask depends on the rows only through the outcomes of the test. *)
Lemma front_ext d d' rows rows' :
  length rows = length rows' ->
  (forall i j, hit d rows i j = hit d' rows' i j) ->
  front d rows = front d' rows'.
Proof.
  intros Hlen Hhit. unfold front. rewrite <- Hlen.
  apply map_ext. intros i. f_equal.
  induction (range (length rows)) as [|j js IH]; [done|].
  cbn. by rewrite Hhit, IH.
Qed.

(** Exchanging the coordinates of every point together with the two
    directions leaves the mask as it is, for all four direction pairs. *)
Lemma classify_swap_axes pts dir_x dir_y :
  classify (map swap_xy pts) dir_y dir_x = classify pts dir_x dir_y.
Proof.
  rewrite !classify_front. f_equal. apply front_ext.
  - by rewrite !scores_of_length, length_map.
  - intros i j. unfold hit. rewrite !scores_of_lookup, !list_lookup_fmap.
    destruct (pts !! j) as [[xj yj]|]; [|done].
    destruct (pts !! i) as [[xi yi]|]; [|done].
    cbn. f_equal.
    destruct dir_x, dir_y; cbn;
      repeat match goal with |- context [F64.ge ?a ?b] => destruct (F64.ge a b) end;
      repeat match goal with |- context [F64.gt ?a ?b] => destruct (F64.gt a b) end;
      repeat match goal with |- context [F64.le ?a ?b] => destruct (F64.le a b) end;
      repeat match goal with |- context [F64.lt ?a ?b] => destruct (F64.lt a b) end;
      reflexivity.
Qed.

(** ** The contract of [identify_pareto] *)

(** C1. With both axes MAXIMIZE, and mirrored with both MINIMIZE, the call
    returns a mask parallel to the points whose entry [i] is true exactly
    when no other index [j] holds a point that is weakly better than point
    [i] on both coordinates and strictly better on at least one: the mask is
    the Pareto non-dominated set. *)
Theorem classify_pure_is_pareto_front (pts : list point) :
  (exists mask, classify pts MAXIMIZE MAXIMIZE = Ok mask /\
                is_front_mask dominates_max_max pts mask) /\
  (exists mask, classify pts MINIMIZE MINIMIZE = Ok mask /\
                is_front_mask dominates_min_min pts mask).
Proof.
  split; eexists; (split; [apply classify_front|]).
  - apply (front_is_front_mask true true).
  - apply (front_is_front_mask false false).
Qed.

(** The two examples of the specification, for both axes MAXIMIZE. *)
Example dominated_point_is_excluded :
  classify [pt 1 1; pt 2 2] MAXIMIZE MAXIMIZE = Ok [false; true].
Proof. reflexivity. Qed.

Example incomparable_points_survive :
  classify sample_points MAXIMIZE MAXIMIZE = Ok [true; true; false].
Proof. reflexivity. Qed.

(** A comparison with [NaN] is false: a point with a [NaN] coordinate is
    not dominated and does not dominate. *)
Example nan_point_is_on_the_front :
  classify [(F64.nan, F64.of_Z 0); pt 2 2; pt 1 1] MAXIMIZE MAXIMIZE
  = Ok [true; true; false].
Proof. reflexivity. Qed.

(** C2. Under a mixed direction pair the mask entry [i] is true exactly when
    no other index [j] dominates [i] under the asymmetric rule: for
    (MAXIMIZE, MINIMIZE), [j.x >= i.x] and [j.y < i.y]; for
    (MINIMIZE, MAXIMIZE), [j.x < i.x] and [j.y >= i.y]. *)
Theorem classify_mixed_is_asymmetric_front (pts : list point) :
  (exists mask, classify pts MAXIMIZE MINIMIZE = Ok mask /\
                is_front_mask dominates_max_min pts mask) /\
  (exists mask, classify pts MINIMIZE MAXIMIZE = Ok mask /\
                is_front_mask dominates_min_max pts mask).
Proof.
  split; eexists; (split; [apply classify_front|]).
  - apply (front_is_front_mask true false).
  - apply (front_is_front_mask false true).
Qed.

(** C4. For every point set and direction pair the returned mask has the
    length of the point set; on the empty point set it is empty. *)
Theorem classify_length (pts : list point) (dir_x dir_y : bool) :
  (exists mask, classify pts dir_x dir_y = Ok mask /\ length mask = length pts) /\
  classify [] dir_x dir_y = Ok [].
Proof.
  split.
  - eexists. split; [apply classify_front|].
    by rewrite front_length, scores_of_length.
  - by rewrite classify_front.
Qed.

(** C3 (as the code has it).  The method validates nothing and has no
    error of its own: whenever every row of the score array holds at least
    two numbers, so in particular on every well-formed [n x 2] input, and for
    either truth value of each direction, the call does not raise and
    returns a mask with one entry per row. *)
Theorem identify_pareto_never_raises_on_well_formed
    (s : store) (scores : loc)
    (rows : list (list float64)) (d : nat) (dir_x dir_y : bool) :
  s !! scores = Some (NdFloat rows) ->
  rectangular d rows ->
  2 <= d ->
  exists mask, returned_mask s scores dir_x dir_y = Ok mask /\
               length mask = length rows.
Proof.
  intros Hs Hrect Hd. unfold returned_mask.
  rewrite (identify_pareto_run s scores rows Hs (rectangular_wide _ _ Hrect Hd)).
  unfold with_mask. rewrite lookup_insert_eq.
  eexists. split; [reflexivity|apply front_length].
Qed.

Lemma identify_pareto_never_raises_on_well_formed_witness :
  sample_store !! 1%positive = Some (NdFloat (scores_of sample_points)) /\
  rectangular 2 (scores_of sample_points) /\
  2 <= 2 /\
  exists mask, returned_mask sample_store 1%positive MINIMIZE MAXIMIZE = Ok mask /\
               length mask = length (scores_of sample_points).
Proof.
  split; [reflexivity|]. split; [apply scores_of_rectangular|]. split; [lia|].
  apply (identify_pareto_never_raises_on_well_formed
           sample_store 1%positive (scores_of sample_points) 2 MINIMIZE MAXIMIZE);
    [reflexivity|apply scores_of_rectangular|lia].
Defined.

(** C3 fails as stated: an array whose rows are not 2-tuples is not
    rejected; the call classifies it and returns a mask. *)
Lemma three_columns_are_not_rejected :
  ~ rectangular 2 three_columns /\
  returned_mask {[ 1%positive := NdFloat three_columns ]} 1%positive MAXIMIZE MAXIMIZE
    = Ok [false; true] /\
  ~ exists e,
      returned_mask {[ 1%positive := NdFloat three_columns ]} 1%positive MAXIMIZE MAXIMIZE
      = Raise e.
Proof.
  split; [|split].
  - intros H. apply Forall_cons in H as [H _]. discriminate H.
  - reflexivity.
  - intros [e H]. discriminate H.
Qed.

(** When the call does fail, on rows too short for a mixed pair, the
    exception is the subscript's [IndexError]. *)
Example one_column_mixed_raises_IndexError :
  returned_mask {[ 1%positive := NdFloat one_column ]} 1%positive MAXIMIZE MINIMIZE
  = Raise IndexError.
Proof. reflexivity. Qed.

(** C5. Under a mixed direction pair a point [j] that equals point [i] on
    the MINIMIZE axis and is strictly better on the MAXIMIZE axis does not
    dominate [i]: the entry of [i] is true unless some third point is
    strictly smaller on the MINIMIZE axis and at least as good on the
    MAXIMIZE axis.  [dx] is the direction of x; the direction of y is the
    opposite one. *)
Theorem mixed_tie_on_min_axis_keeps_point
    (dx : bool) (pts : list point) (i j : nat) (pi pj : point) :
  pts !! i = Some pi ->
  pts !! j = Some pj ->
  F64.eq (on_min_axis dx pj) (on_min_axis dx pi) = true ->
  F64.gt (on_max_axis dx pj) (on_max_axis dx pi) = true ->
  ~ spec_dominates dx (negb dx) pj pi /\
  exists mask, classify pts dx (negb dx) = Ok mask /\
    (mask !! i = Some true <->
     ~ exists k pk, k ≠ i /\ k ≠ j /\ pts !! k = Some pk /\
         F64.lt (on_min_axis dx pk) (on_min_axis dx pi) = true /\
         F64.ge (on_max_axis dx pk) (on_max_axis dx pi) = true).
Proof.
  intros Hi Hj Heq _.
  assert (Hnot : ~ spec_dominates dx (negb dx) pj pi).
  { apply eq_not_lt in Heq as [Hlt _].
    destruct dx; cbn in *; unfold dominates_max_min, dominates_min_max;
      intuition congruence. }
  split; [done|]. eexists. split; [apply classify_front|].
  rewrite (front_entry _ _ _ _ _ Hi). unfold non_dominated. split.
  - intros Hnd (k & pk & Hki & _ & Hk & Hlt & Hge).
    apply (Hnd k pk Hki Hk).
    destruct dx; cbn in *; unfold dominates_max_min, dominates_min_max; auto.
  - intros Hno k pk Hki Hk Hdom.
    destruct (decide (k = j)) as [->|Hkj].
    + rewrite Hj in Hk. injection Hk as <-. by apply Hnot.
    + apply Hno. exists k, pk.
      destruct dx; cbn in *; unfold dominates_max_min, dominates_min_max in Hdom;
        intuition.
Qed.

Lemma mixed_tie_on_min_axis_keeps_point_witness :
  tied_on_y !! 0 = Some (pt 1 1) /\
  tied_on_y !! 1 = Some (pt 2 1) /\
  F64.eq (on_min_axis MAXIMIZE (pt 2 1)) (on_min_axis MAXIMIZE (pt 1 1)) = true /\
  F64.gt (on_max_axis MAXIMIZE (pt 2 1)) (on_max_axis MAXIMIZE (pt 1 1)) = true /\
  ~ spec_dominates MAXIMIZE MINIMIZE (pt 2 1) (pt 1 1) /\
  exists mask, classify tied_on_y MAXIMIZE MINIMIZE = Ok mask /\
    (mask !! 0 = Some true <->
     ~ exists k pk, k ≠ 0 /\ k ≠ 1 /\ tied_on_y !! k = Some pk /\
         F64.lt (on_min_axis MAXIMIZE pk) (on_min_axis MAXIMIZE (pt 1 1)) = true /\
         F64.ge (on_max_axis MAXIMIZE pk) (on_max_axis MAXIMIZE (pt 1 1)) = true).
Proof.
  split; [reflexivity|]. split; [reflexivity|].
  split; [reflexivity|]. split; [reflexivity|].
  apply (mixed_tie_on_min_axis_keeps_point MAXIMIZE tied_on_y 0 1 (pt 1 1) (pt 2 1));
    reflexivity.
Defined.

(** C6. Under the pure direction pairs equal points never eliminate each
    other: when all points of the input are tied, in particular when they
    are all identical, every entry is true; tied points do not dominate one
    another; and in any point set the entry of a point is true unless a
    point outside its tied cluster dominates it. *)
Theorem pure_ties_never_eliminate (d : bool) :
  (forall pts : list point,
     (forall p q, p ∈ pts -> q ∈ pts -> tied p q) ->
     classify pts d d = Ok (replicate (length pts) true)) /\
  (forall (p : point) (n : nat), classify (replicate n p) d d = Ok (replicate n true)) /\
  (forall p q : point, tied p q -> ~ spec_dominates d d p q) /\
  (forall (pts : list point) (i : nat) (pi : point),
     pts !! i = Some pi ->
     exists mask, classify pts d d = Ok mask /\
       (mask !! i = Some true <->
        forall k pk, pts !! k = Some pk -> ~ tied pk pi -> ~ spec_dominates d d pk pi)).
Proof.
  assert (Hall : forall pts : list point,
            (forall p q, p ∈ pts -> q ∈ pts -> tied p q) ->
            classify pts d d = Ok (replicate (length pts) true)).
  { intros pts Htied. rewrite classify_front. f_equal.
    apply list_eq_same_length with (length pts);
      [apply length_replicate|by rewrite front_length, scores_of_length|].
    intros i x y Hi Hx Hy.
    apply lookup_replicate in Hy as [-> _].
    destruct (lookup_lt_is_Some_2 pts i Hi) as [pi Hpi].
    assert (Hfront : front (dominates d d) (scores_of pts) !! i = Some true).
    { apply (front_entry _ _ _ _ _ Hpi). intros j pj _ Hj.
      apply tied_not_dominates, Htied; apply list_elem_of_lookup; eauto. }
    congruence. }
  split; [exact Hall|]. split; [|split].
  - intros p n. rewrite <- (length_replicate n p) at 2. apply Hall.
    intros p1 p2 H1 H2. left.
    apply elem_of_replicate in H1 as [-> _].
    apply elem_of_replicate in H2 as [-> _]. reflexivity.
  - intros p q. apply tied_not_dominates.
  - intros pts i pi Hi. eexists. split; [apply classify_front|].
    rewrite (front_entry _ _ _ _ _ Hi). unfold non_dominated. split.
    + intros Hnd k pk Hk Hnt. apply (Hnd k pk); [|done].
      intros ->. apply Hnt. left. congruence.
    + intros Hout j pj _ Hj Hdom.
      apply (Hout j pj Hj); [|done].
      intros Ht. by apply (tied_not_dominates d pj pi).
Qed.

(** The two zeros compare equal, so points that differ only in the sign of
    a zero are tied and both stay on the front. *)
Example signed_zeros_are_tied :
  tied (F64.of_Z 0, F64.of_Z 1) (F64.neg_zero, F64.of_Z 1) /\
  classify [(F64.of_Z 0, F64.of_Z 1); (F64.neg_zero, F64.of_Z 1)] MAXIMIZE MAXIMIZE
  = Ok [true; true].
Proof. split; [right; split; reflexivity|reflexivity]. Qed.

(** C7. For the pure direction pairs, exchanging the two coordinates of
    every point (the two directions, being equal, exchange to themselves)
    leaves the mask, and so the set of indices marked true, unchanged. *)
Theorem pure_front_invariant_under_axis_swap (pts : list point) (d : bool) :
  classify (map swap_xy pts) d d = classify pts d d.
Proof. apply classify_swap_axes. Qed.

(** C8. The call is deterministic and keeps no hidden state: on a store
    that holds the scores of [pts], a call returns a mask, a second call on
    the store the first one left returns a mask with the same content and
    leaves the first mask as it was, and that content is the one the call
    returns on any other store, [classify pts dir_x dir_y]. *)
Theorem identify_pareto_deterministic
    (s : store) (scores : loc) (pts : list point)
    (dir_x dir_y : bool) :
  s !! scores = Some (NdFloat (scores_of pts)) ->
  exists l1 s1 l2 s2 mask,
    identify_pareto scores dir_x dir_y s = Ok (l1, s1) /\
    identify_pareto scores dir_x dir_y s1 = Ok (l2, s2) /\
    s1 !! l1 = Some (NdBool mask) /\
    s2 !! l2 = Some (NdBool mask) /\
    s2 !! l1 = Some (NdBool mask) /\
    classify pts dir_x dir_y = Ok mask.
Proof.
  intros Hs.
  set (mask := front (dominates dir_x dir_y) (scores_of pts)).
  set (l1 := fresh (dom s)). set (s1 := <[l1 := NdBool mask]> s).
  assert (Hfresh : s !! l1 = None) by apply not_elem_of_dom, is_fresh.
  assert (Hs1 : s1 !! scores = Some (NdFloat (scores_of pts))).
  { unfold s1. rewrite lookup_insert_ne; [done|]. intros E. congruence. }
  set (l2 := fresh (dom s1)).
  assert (Hfresh2 : s1 !! l2 = None) by apply not_elem_of_dom, is_fresh.
  assert (Hl1 : s1 !! l1 = Some (NdBool mask)) by apply lookup_insert_eq.
  exists l1, s1, l2, (<[l2 := NdBool mask]> s1), mask.
  split; [by apply identify_pareto_points|].
  split; [by apply identify_pareto_points|].
  split; [done|]. split; [apply lookup_insert_eq|].
  split; [|apply classify_front].
  rewrite lookup_insert_ne; [done|]. intros E. congruence.
Qed.

Lemma identify_pareto_deterministic_witness :
  sample_store !! 1%positive = Some (NdFloat (scores_of sample_points)) /\
  exists l1 s1 l2 s2 mask,
    identify_pareto 1%positive MAXIMIZE MAXIMIZE sample_store = Ok (l1, s1) /\
    identify_pareto 1%positive MAXIMIZE MAXIMIZE s1 = Ok (l2, s2) /\
    s1 !! l1 = Some (NdBool mask) /\
    s2 !! l2 = Some (NdBool mask) /\
    s2 !! l1 = Some (NdBool mask) /\
    classify sample_points MAXIMIZE MAXIMIZE = Ok mask.
Proof.
  split; [reflexivity|].
  apply (identify_pareto_deterministic sample_store 1%positive sample_points
           MAXIMIZE MAXIMIZE).
  reflexivity.
Defined.

(** C9. The call has no effect on its input: the returned reference is an
    address that was not live before the call, so it aliases nothing the
    caller holds and in particular not the input; the input array is
    unchanged; and so is every other object of the store. *)
Theorem identify_pareto_frame
    (s : store) (scores : loc) (pts : list point)
    (dir_x dir_y : bool) :
  s !! scores = Some (NdFloat (scores_of pts)) ->
  exists l s',
    identify_pareto scores dir_x dir_y s = Ok (l, s') /\
    s !! l = None /\
    l ≠ scores /\
    s' !! scores = Some (NdFloat (scores_of pts)) /\
    (forall l', l' ≠ l -> s' !! l' = s !! l').
Proof.
  intros Hs.
  assert (Hfresh : s !! fresh (dom s) = None) by apply not_elem_of_dom, is_fresh.
  assert (Hne : fresh (dom s) ≠ scores) by (intros E; congruence).
  eexists _, _. split; [by apply identify_pareto_points|].
  split; [done|]. split; [done|]. split.
  - by rewrite lookup_insert_ne.
  - intros l' Hl'. by rewrite lookup_insert_ne.
Qed.

Lemma identify_pareto_frame_witness :
  sample_store !! 1%positive = Some (NdFloat (scores_of sample_points)) /\
  exists l s',
    identify_pareto 1%positive MAXIMIZE MINIMIZE sample_store = Ok (l, s') /\
    sample_store !! l = None /\
    l ≠ 1%positive /\
    s' !! 1%positive = Some (NdFloat (scores_of sample_points)) /\
    (forall l', l' ≠ l -> s' !! l' = sample_store !! l').
Proof.
  split; [reflexivity|].
  apply (identify_pareto_frame sample_store 1%positive sample_points
           MAXIMIZE MINIMIZE).
  reflexivity.
Defined.

(** C10. For every non-empty point set without NaN coordinates and each of
    the four direction pairs, the mask has a true entry: the rule of each
    branch is irreflexive and acyclic, so some point is left
    non-dominated. *)
Theorem nonempty_input_has_front_point
    (pts : list point) (dir_x dir_y : bool) :
  pts ≠ [] ->
  Forall no_nan pts ->
  (forall p, ~ spec_dominates dir_x dir_y p p) /\
  (forall p, ~ clos_trans point (spec_dominates dir_x dir_y) p p) /\
  exists mask i, classify pts dir_x dir_y = Ok mask /\ mask !! i = Some true.
Proof.
  intros Hne _. split; [apply spec_dominates_irrefl|]. split.
  - intros p Hc. apply spec_dominates_clos_trans in Hc.
    by apply spec_dominates_irrefl in Hc.
  - destruct (front_has_true dir_x dir_y pts Hne) as [i Hi].
    eexists _, i. split; [apply classify_front|done].
Qed.

Lemma nonempty_input_has_front_point_witness :
  sample_points ≠ [] /\
  Forall no_nan sample_points /\
  (forall p, ~ spec_dominates MINIMIZE MAXIMIZE p p) /\
  (forall p, ~ clos_trans point (spec_dominates MINIMIZE MAXIMIZE) p p) /\
  exists mask i, classify sample_points MINIMIZE MAXIMIZE = Ok mask /\
                 mask !! i = Some true.
Proof.
  assert (Hne : sample_points ≠ []) by discriminate.
  assert (Hnan : Forall no_nan sample_points)
    by (repeat constructor).
  split; [exact Hne|]. split; [exact Hnan|].
  exact (nonempty_input_has_front_point sample_points MINIMIZE MAXIMIZE Hne Hnan).
Defined.

(** * Further properties of [identify_pareto] *)

Lemma bind_raise {A B : Type} (c : M A) (k : A -> M B) s e :
  c s = Raise e -> bind c k s = Raise e.
Proof. unfold bind; intros ->; reflexivity. Qed.

(** The four branches run the same loops with the test of [test_of]. *)
Lemma identify_pareto_test_of scores dir_x dir_y s :
  identify_pareto scores dir_x dir_y s
  = bind (shape0 scores) (fun n =>
      bind (np_ones n) (fun is_pareto =>
        bind (clear_dominated scores is_pareto (test_of dir_x dir_y scores))
             (fun _ => ret is_pareto))) s.
Proof. unfold identify_pareto, test_of. by destruct dir_x, dir_y. Qed.

(** A call whose test, on the rows at hand, evaluates to [d] without
    raising returns the mask [front d rows]. *)
Lemma identify_pareto_run_with d s scores rows dir_x dir_y :
  s !! scores = Some (NdFloat rows) ->
  (forall mask i j ri rj,
     rows !! i = Some ri -> rows !! j = Some rj ->
     test_of dir_x dir_y scores i j (with_mask s mask)
     = Ok (d rj ri && bool_decide (i ≠ j), with_mask s mask)) ->
  identify_pareto scores dir_x dir_y s = Ok (mask_loc s, with_mask s (front d rows)).
Proof.
  intros Hs Htest. rewrite identify_pareto_test_of.
  erewrite bind_ok; [|unfold shape0; by rewrite Hs].
  erewrite bind_ok; [|reflexivity].
  fold (mask_loc s). fold (with_mask s (replicate (length rows) true)).
  erewrite bind_ok; [reflexivity|].
  by apply (clear_all_run s scores rows Hs).
Qed.

Lemma returned_mask_run_with d s scores rows dir_x dir_y :
  s !! scores = Some (NdFloat rows) ->
  (forall mask i j ri rj,
     rows !! i = Some ri -> rows !! j = Some rj ->
     test_of dir_x dir_y scores i j (with_mask s mask)
     = Ok (d rj ri && bool_decide (i ≠ j), with_mask s mask)) ->
  returned_mask s scores dir_x dir_y = Ok (front d rows).
Proof.
  intros Hs Htest. unfold returned_mask.
  rewrite (identify_pareto_run_with d _ _ _ _ _ Hs Htest).
  unfold with_mask. by rewrite lookup_insert_eq.
Qed.

Lemma front_lookup_true d rows i ri :
  rows !! i = Some ri ->
  front d rows !! i = Some true <->
  forall j rj, j ≠ i -> rows !! j = Some rj -> d rj ri = false.
Proof.
  intros Hi. rewrite front_lookup by (by apply lookup_lt_Some in Hi).
  split.
  - intros [= Hn] j rj Hne Hj. apply negb_true_iff in Hn.
    apply not_true_is_false. intros Hd.
    assert (H : existsb (hit d rows i) (range (length rows)) = true)
      by (apply (hit_exists _ _ _ _ Hi); eauto).
    congruence.
  - intros Hno. f_equal. apply negb_true_iff, not_true_is_false. intros H.
    apply (hit_exists _ _ _ _ Hi) in H as (j & rj & Hne & Hj & Hd).
    rewrite (Hno j rj Hne Hj) in Hd. discriminate.
Qed.

Lemma all_zip_with (f : float64 -> float64 -> bool) r1 r2 :
  all (zip_with f r1 r2) = true <->
  forall k a b, r1 !! k = Some a -> r2 !! k = Some b -> f a b = true.
Proof.
  unfold all. revert r2. induction r1 as [|x r1 IH]; intros [|y r2]; cbn.
  - split; [intros _ k a b H|]; done.
  - split; [intros _ k a b H|]; done.
  - split; [intros _ [|k] a b _ H|]; done.
  - rewrite andb_true_iff, IH. split.
    + intros [Hxy Hrest] [|k] a b Ha Hb; cbn in *; [congruence|eauto].
    + intros H. split; [by apply (H 0)|]. intros k a b Ha Hb. by apply (H (S k)).
Qed.

Lemma any_zip_with (f : float64 -> float64 -> bool) r1 r2 :
  any (zip_with f r1 r2) = true <->
  exists k a b, r1 !! k = Some a /\ r2 !! k = Some b /\ f a b = true.
Proof.
  unfold any. revert r2. induction r1 as [|x r1 IH]; intros [|y r2]; cbn.
  - split; [done|]. by intros (k & a & b & H & _).
  - split; [done|]. by intros (k & a & b & H & _).
  - split; [done|]. by intros ([|k] & a & b & _ & H & _).
  - rewrite orb_true_iff, IH. split.
    + intros [Hxy|(k & a & b & Ha & Hb & Hf)].
      * exists 0, x, y. auto.
      * exists (S k), a, b. auto.
    + intros ([|k] & a & b & Ha & Hb & Hf); cbn in *.
      * left. congruence.
      * right. eauto 6.
Qed.

Lemma dominates_pure_row_dominates dir rj ri :
  dominates dir dir rj ri = true <-> row_dominates dir rj ri.
Proof.
  unfold row_dominates, dominates.
  destruct dir; cbn [andb];
    unfold rows_ge, rows_gt, rows_le, rows_lt;
    by rewrite andb_true_iff, all_zip_with, any_zip_with.
Qed.

Lemma test_of_pure_run s scores rows dir mask i j ri rj :
  s !! scores = Some (NdFloat rows) ->
  rows !! i = Some ri -> rows !! j = Some rj ->
  test_of dir dir scores i j (with_mask s mask)
  = Ok (dominates dir dir rj ri && bool_decide (i ≠ j), with_mask s mask).
Proof.
  intros Hs Hi Hj. destruct dir; cbn.
  - by apply (test_max_max_run s scores rows Hs).
  - by apply (test_min_min_run s scores rows Hs).
Qed.

(** X1. The pure branches compute the Pareto front of an array of any
    column count, not only of two columns: on an [n x d] array the call
    under (MAXIMIZE, MAXIMIZE) or (MINIMIZE, MINIMIZE) does not raise, and
    entry [i] of its mask is true exactly when no other row is at least as
    good as row [i] in every column and strictly better in one. *)
Theorem pure_front_in_any_dimension
    (s : store) (scores : loc) (rows : list (list float64)) (d : nat) (dir : bool) :
  s !! scores = Some (NdFloat rows) ->
  rectangular d rows ->
  exists mask,
    returned_mask s scores dir dir = Ok mask /\
    length mask = length rows /\
    forall i ri, rows !! i = Some ri ->
      (mask !! i = Some true <->
       forall j rj, j ≠ i -> rows !! j = Some rj -> ~ row_dominates dir rj ri).
Proof.
  intros Hs _. exists (front (dominates dir dir) rows).
  split; [|split].
  - apply (returned_mask_run_with _ s scores rows); [done|].
    intros. by apply (test_of_pure_run s scores rows).
  - apply front_length.
  - intros i ri Hi. rewrite (front_lookup_true _ _ _ _ Hi).
    split; intros H j rj Hne Hj.
    + rewrite <- dominates_pure_row_dominates, (H j rj Hne Hj). done.
    + apply not_true_is_false. rewrite dominates_pure_row_dominates. eauto.
Qed.

Lemma pure_front_in_any_dimension_witness :
  ({[ 1%positive := NdFloat three_columns ]} : store) !! 1%positive
    = Some (NdFloat three_columns) /\
  rectangular 3 three_columns /\
  exists mask,
    returned_mask {[ 1%positive := NdFloat three_columns ]} 1%positive MAXIMIZE MAXIMIZE
      = Ok mask /\
    length mask = length three_columns /\
    forall i ri, three_columns !! i = Some ri ->
      (mask !! i = Some true <->
       forall j rj, j ≠ i -> three_columns !! j = Some rj ->
         ~ row_dominates MAXIMIZE rj ri).
Proof.
  assert (Hrect : rectangular 3 three_columns) by (repeat constructor).
  split; [reflexivity|]. split; [exact Hrect|].
  exact (pure_front_in_any_dimension
           {[ 1%positive := NdFloat three_columns ]} 1%positive three_columns 3
           MAXIMIZE eq_refl Hrect).
Defined.

(** X2. For a mixed direction pair the method reads columns 0 and 1 only:
    on an array of at least two columns the mask is the one of the array
    cut down to its first two columns. *)
Theorem mixed_reads_first_two_columns
    (s s' : store) (scores scores' : loc) (rows : list (list float64))
    (d : nat) (dx : bool) :
  s !! scores = Some (NdFloat rows) ->
  s' !! scores' = Some (NdFloat (map (take 2) rows)) ->
  rectangular d rows ->
  2 <= d ->
  returned_mask s scores dx (negb dx) = returned_mask s' scores' dx (negb dx).
Proof.
  intros Hs Hs' Hrect Hd.
  pose proof (rectangular_wide _ _ Hrect Hd) as Hwide.
  assert (Hwide' : Forall (fun r => 2 <= length r) (map (take 2) rows)).
  { apply Forall_fmap. eapply Forall_impl; [exact Hwide|].
    intros r Hr. cbn in *. rewrite length_take. apply Nat.min_glb; lia. }
  unfold returned_mask.
  rewrite (identify_pareto_run s scores rows Hs Hwide).
  rewrite (identify_pareto_run s' scores' _ Hs' Hwide').
  unfold with_mask. rewrite !lookup_insert_eq. f_equal.
  apply front_ext; [by rewrite length_map|].
  intros i j. unfold hit. rewrite !list_lookup_fmap.
  destruct (rows !! j) as [rj|] eqn:Hj; [|done].
  destruct (rows !! i) as [ri|] eqn:Hi; [|done].
  pose proof (Forall_lookup_1 _ _ _ _ Hwide Hj) as Hlj.
  pose proof (Forall_lookup_1 _ _ _ _ Hwide Hi) as Hli.
  destruct rj as [|xj [|yj rj]]; cbn in Hlj; try lia.
  destruct ri as [|xi [|yi ri]]; cbn in Hli; try lia.
  by destruct dx.
Qed.

Lemma mixed_reads_first_two_columns_witness :
  ({[ 1%positive := NdFloat three_columns ]} : store) !! 1%positive
    = Some (NdFloat three_columns) /\
  ({[ 2%positive := NdFloat (map (take 2) three_columns) ]} : store) !! 2%positive
    = Some (NdFloat (map (take 2) three_columns)) /\
  rectangular 3 three_columns /\
  2 <= 3 /\
  returned_mask {[ 1%positive := NdFloat three_columns ]} 1%positive MAXIMIZE MINIMIZE
  = returned_mask {[ 2%positive := NdFloat (map (take 2) three_columns) ]} 2%positive
      MAXIMIZE MINIMIZE.
Proof.
  assert (Hrect : rectangular 3 three_columns) by (repeat constructor).
  assert (Hd : 2 <= 3) by lia.
  split; [reflexivity|]. split; [reflexivity|]. split; [exact Hrect|].
  split; [exact Hd|].
  exact (mixed_reads_first_two_columns
           {[ 1%positive := NdFloat three_columns ]}
           {[ 2%positive := NdFloat (map (take 2) three_columns) ]}
           1%positive 2%positive three_columns 3 MAXIMIZE eq_refl eq_refl Hrect Hd).
Defined.

(** *** One-column arrays under a mixed pair *)

Lemma le_refl_not_nan a : F64.is_nan a = false -> F64.le a a = true.
Proof.
  intros Ha. apply le_key.
  destruct (key a) as [k|] eqn:Hk; [eauto 6|].
  destruct a as [|[]| |[]]; discriminate.
Qed.

Section one_column_run.

Variable s0 : store.
Variable scores : loc.
Variable rows : list (list float64).
Variable dx : bool.
Hypothesis Hscores : s0 !! scores = Some (NdFloat rows).
Hypothesis Hcol : rectangular 1 rows.

Lemma one_column_row i r : rows !! i = Some r -> exists a, r = [a].
Proof.
  intros H. pose proof (Forall_lookup_1 _ _ _ _ Hcol H) as Hl.
  destruct r as [|a [|b r]]; try discriminate. eauto.
Qed.

(** With one column the test either stops at the false first comparison or
    raises when it reaches for column 1. *)
Lemma test_one_column_run mask i j :
  i < length rows -> j < length rows ->
  test_of dx (negb dx) scores i j (with_mask s0 mask)
  = if first_hit dx rows i j then Raise IndexError else Ok (false, with_mask s0 mask).
Proof.
  intros Hi Hj.
  destruct (lookup_lt_is_Some_2 rows i Hi) as [ri Hri].
  destruct (lookup_lt_is_Some_2 rows j Hj) as [rj Hrj].
  destruct (one_column_row _ _ Hri) as [a ->].
  destruct (one_column_row _ _ Hrj) as [b ->].
  unfold first_hit. rewrite Hrj, Hri. unfold first_comparison.
  destruct dx; cbn [test_of negb andb]; unfold test_max_min, test_min_max, and_then.
  - rewrite !bind_bind. erewrite bind_ok; [|by eapply getrow_run].
    rewrite !bind_bind. erewrite bind_ok; [|reflexivity].
    rewrite !bind_bind. erewrite bind_ok; [|by eapply getrow_run].
    rewrite !bind_bind. erewrite bind_ok; [|reflexivity].
    erewrite bind_ok; [|reflexivity].
    destruct (F64.ge b a); [|reflexivity].
    rewrite !bind_bind. erewrite bind_ok; [|by eapply getrow_run].
    reflexivity.
  - rewrite !bind_bind. erewrite bind_ok; [|by eapply getrow_run].
    rewrite !bind_bind. erewrite bind_ok; [|reflexivity].
    rewrite !bind_bind. erewrite bind_ok; [|by eapply getrow_run].
    rewrite !bind_bind. erewrite bind_ok; [|reflexivity].
    erewrite bind_ok; [|reflexivity].
    destruct (F64.lt b a); [|reflexivity].
    rewrite !bind_bind. erewrite bind_ok; [|by eapply getrow_run].
    reflexivity.
Qed.

Lemma inner_loop_one_column i js mask :
  i < length rows -> Forall (fun j => j < length rows) js ->
  for_in js (fun j =>
      b <- test_of dx (negb dx) scores i j ;;
      if b then setitem (mask_loc s0) i false ;; ret Break else ret Next)
    (with_mask s0 mask)
  = if existsb (first_hit dx rows i) js then Raise IndexError else Ok (tt, with_mask s0 mask).
Proof.
  intros Hi Hjs. induction Hjs as [|j js Hj _ IH]; [reflexivity|].
  cbn [for_in existsb]. rewrite bind_bind.
  pose proof (test_one_column_run mask i j Hi Hj) as Ht.
  destruct (first_hit dx rows i j); cbn [orb].
  - by erewrite bind_raise.
  - erewrite bind_ok; [|exact Ht]. erewrite bind_ok; [|reflexivity]. apply IH.
Qed.

Lemma outer_loop_one_column ixs mask :
  Forall (fun i => i < length rows) ixs ->
  for_in ixs (fun i =>
      n' <- shape0 scores ;;
      for_in (range n') (fun j =>
        b <- test_of dx (negb dx) scores i j ;;
        if b then setitem (mask_loc s0) i false ;; ret Break else ret Next) ;;
      ret Next)
    (with_mask s0 mask)
  = if existsb (fun i => existsb (first_hit dx rows i) (range (length rows))) ixs
    then Raise IndexError else Ok (tt, with_mask s0 mask).
Proof.
  intros His. induction His as [|i ixs Hi _ IH]; [reflexivity|].
  cbn [for_in existsb].
  rewrite bind_bind. erewrite bind_ok; [|by apply shape0_run].
  rewrite bind_bind.
  assert (Hin : for_in (range (length rows)) (fun j =>
              b <- test_of dx (negb dx) scores i j ;;
              if b then setitem (mask_loc s0) i false ;; ret Break else ret Next)
            (with_mask s0 mask)
          = if existsb (first_hit dx rows i) (range (length rows))
            then Raise IndexError else Ok (tt, with_mask s0 mask)).
  { apply inner_loop_one_column; [done|].
    apply Forall_forall. intros j Hj. unfold range in Hj.
    apply elem_of_seq in Hj. lia. }
  destruct (existsb (first_hit dx rows i) (range (length rows))); cbn [orb].
  - by erewrite bind_raise.
  - erewrite bind_ok; [|exact Hin]. erewrite bind_ok; [|reflexivity]. apply IH.
Qed.

Lemma returned_mask_one_column :
  returned_mask s0 scores dx (negb dx)
  = if existsb (fun i => existsb (first_hit dx rows i) (range (length rows)))
         (range (length rows))
    then Raise IndexError else Ok (replicate (length rows) true).
Proof.
  unfold returned_mask. rewrite identify_pareto_test_of.
  erewrite bind_ok; [|unfold shape0; by rewrite Hscores].
  erewrite bind_ok; [|reflexivity].
  fold (mask_loc s0). fold (with_mask s0 (replicate (length rows) true)).
  assert (Hloops : clear_dominated scores (mask_loc s0) (test_of dx (negb dx) scores)
                     (with_mask s0 (replicate (length rows) true))
                   = if existsb (fun i => existsb (first_hit dx rows i) (range (length rows)))
                          (range (length rows))
                     then Raise IndexError
                     else Ok (tt, with_mask s0 (replicate (length rows) true))).
  { unfold clear_dominated. erewrite bind_ok; [|by apply shape0_run].
    apply outer_loop_one_column.
    apply Forall_forall. intros j Hj. unfold range in Hj.
    apply elem_of_seq in Hj. lia. }
  destruct (existsb _ (range (length rows))).
  - by erewrite bind_raise.
  - erewrite bind_ok; [|exact Hloops]. cbn.
    by rewrite with_mask_mask.
Qed.

Lemma first_hit_exists :
  existsb (fun i => existsb (first_hit dx rows i) (range (length rows))) (range (length rows)) = true
  <-> exists i j a b, rows !! i = Some [a] /\ rows !! j = Some [b] /\
                      first_comparison dx b a = true.
Proof.
  rewrite existsb_exists. split.
  - intros (i & _ & Hi). apply existsb_exists in Hi as (j & _ & Hij).
    unfold first_hit in Hij.
    destruct (rows !! j) as [[|b [|]]|] eqn:Hj; try discriminate.
    destruct (rows !! i) as [[|a [|]]|] eqn:Hi; try discriminate.
    exists i, j, a, b. auto.
  - intros (i & j & a & b & Hi & Hj & Hc). exists i. split.
    + apply in_seq. apply lookup_lt_Some in Hi. lia.
    + apply existsb_exists. exists j. split.
      * apply in_seq. apply lookup_lt_Some in Hj. lia.
      * unfold first_hit. by rewrite Hj, Hi.
Qed.

End one_column_run.

(** X3. On an [n x 1] array a mixed pair fails exactly when a first
    comparison succeeds: if for some rows [i], [j] the comparison on column
    0 ([>=] when x is maximised, [<] when it is minimised) is true, the
    call raises [IndexError] on the subscript [1]; if it is false for all
    pairs of rows, the call returns the all-true mask. *)
Theorem one_column_mixed_outcome
    (s : store) (scores : loc) (rows : list (list float64)) (dx : bool) :
  s !! scores = Some (NdFloat rows) ->
  rectangular 1 rows ->
  ((exists i j a b, rows !! i = Some [a] /\ rows !! j = Some [b] /\
                    first_comparison dx b a = true) ->
   returned_mask s scores dx (negb dx) = Raise IndexError) /\
  ((forall i j a b, rows !! i = Some [a] -> rows !! j = Some [b] ->
                    first_comparison dx b a = false) ->
   returned_mask s scores dx (negb dx) = Ok (replicate (length rows) true)).
Proof.
  intros Hs Hcol.
  rewrite (returned_mask_one_column s scores rows dx Hs Hcol).
  pose proof (first_hit_exists rows dx) as Hex.
  destruct (existsb _ (range (length rows))); split; try done.
  - intros Hnone. destruct Hex as [Hex _].
    destruct (Hex eq_refl) as (i & j & a & b & Hi & Hj & Hc).
    rewrite (Hnone i j a b Hi Hj) in Hc. discriminate.
  - intros Hsome. apply Hex in Hsome. discriminate.
Qed.

Lemma one_column_mixed_outcome_witness :
  ({[ 1%positive := NdFloat one_column ]} : store) !! 1%positive
    = Some (NdFloat one_column) /\
  rectangular 1 one_column /\
  ((exists i j a b, one_column !! i = Some [a] /\ one_column !! j = Some [b] /\
                    first_comparison MINIMIZE b a = true) ->
   returned_mask {[ 1%positive := NdFloat one_column ]} 1%positive MINIMIZE MAXIMIZE
   = Raise IndexError) /\
  ((forall i j a b, one_column !! i = Some [a] -> one_column !! j = Some [b] ->
                    first_comparison MINIMIZE b a = false) ->
   returned_mask {[ 1%positive := NdFloat one_column ]} 1%positive MINIMIZE MAXIMIZE
   = Ok (replicate (length one_column) true)).
Proof.
  assert (Hrect : rectangular 1 one_column) by (repeat constructor).
  split; [reflexivity|]. split; [exact Hrect|].
  exact (one_column_mixed_outcome
           {[ 1%positive := NdFloat one_column ]} 1%positive one_column MINIMIZE
           eq_refl Hrect).
Defined.

(** X4. Under (MAXIMIZE, MINIMIZE) an [n x 1] array that holds a value
    other than [NaN] always makes the call raise [IndexError]: that value
    is [>=] itself, so the test reaches for column 1. *)
Theorem one_column_max_min_raises
    (s : store) (scores : loc) (rows : list (list float64)) (i : nat) (a : float64) :
  s !! scores = Some (NdFloat rows) ->
  rectangular 1 rows ->
  rows !! i = Some [a] ->
  F64.is_nan a = false ->
  returned_mask s scores MAXIMIZE MINIMIZE = Raise IndexError.
Proof.
  intros Hs Hcol Hi Ha.
  pose proof (returned_mask_one_column s scores rows true Hs Hcol) as Hrun.
  cbn [negb] in Hrun. rewrite Hrun.
  destruct (existsb _ (range (length rows))) eqn:E; [done|].
  assert (H : existsb (fun i => existsb (first_hit true rows i) (range (length rows)))
                (range (length rows)) = true).
  { apply first_hit_exists. exists i, i, a, a.
    split; [done|]. split; [done|]. by apply le_refl_not_nan. }
  congruence.
Qed.

Lemma one_column_max_min_raises_witness :
  ({[ 1%positive := NdFloat one_column ]} : store) !! 1%positive
    = Some (NdFloat one_column) /\
  rectangular 1 one_column /\
  one_column !! 1 = Some [F64.of_Z 2] /\
  F64.is_nan (F64.of_Z 2) = false /\
  returned_mask {[ 1%positive := NdFloat one_column ]} 1%positive MAXIMIZE MINIMIZE
  = Raise IndexError.
Proof.
  assert (Hrect : rectangular 1 one_column) by (repeat constructor).
  split; [reflexivity|]. split; [exact Hrect|].
  split; [reflexivity|]. split; [reflexivity|].
  exact (one_column_max_min_raises
           {[ 1%positive := NdFloat one_column ]} 1%positive one_column 1 (F64.of_Z 2)
           eq_refl Hrect eq_refl eq_refl).
Defined.

(** ** Further properties of the front of a point set *)

Lemma front_entry_all dir_x dir_y pts i pi :
  pts !! i = Some pi ->
  front (dominates dir_x dir_y) (scores_of pts) !! i = Some true <->
  forall q, q ∈ pts -> ~ spec_dominates dir_x dir_y q pi.
Proof.
  intros Hi. rewrite (front_entry _ _ _ _ _ Hi). unfold non_dominated. split.
  - intros Hnd q Hq. apply list_elem_of_lookup in Hq as [j Hj].
    destruct (decide (j = i)) as [->|Hne]; [|by apply (Hnd j)].
    rewrite Hi in Hj. injection Hj as <-. apply spec_dominates_irrefl.
  - intros Hall j pj _ Hj. apply Hall. apply list_elem_of_lookup. eauto.
Qed.

Lemma front_entry_false dir_x dir_y pts i pi :
  pts !! i = Some pi ->
  front (dominates dir_x dir_y) (scores_of pts) !! i = Some false ->
  exists j pj, j ≠ i /\ pts !! j = Some pj /\ spec_dominates dir_x dir_y pj pi.
Proof.
  intros Hi Hf.
  assert (Hrow : scores_of pts !! i = Some [pi.1; pi.2])
    by (by rewrite scores_of_lookup, Hi).
  rewrite front_lookup in Hf by (by apply lookup_lt_Some in Hrow).
  injection Hf as Hf. apply negb_false_iff in Hf.
  apply (hit_exists _ _ _ _ Hrow) in Hf as (j & rj & Hne & Hj & Hd).
  rewrite scores_of_lookup in Hj.
  destruct (pts !! j) as [pj|] eqn:Hpj; [|done].
  cbn in Hj. injection Hj as <-.
  exists j, pj. split; [done|]. split; [done|]. by apply dominates_spec.
Qed.

(** X5. The test [i != j] of the loops never decides an entry: under each
    of the four direction pairs, entry [i] is true exactly when no point of
    the input, point [i] itself included, dominates point [i].  The entry
    depends on the value of the point and on the set of values of the
    input, not on positions. *)
Theorem front_entry_is_value_based
    (pts : list point) (dir_x dir_y : bool) (i : nat) (pi : point) :
  pts !! i = Some pi ->
  exists mask, classify pts dir_x dir_y = Ok mask /\
    (mask !! i = Some true <-> forall q, q ∈ pts -> ~ spec_dominates dir_x dir_y q pi).
Proof.
  intros Hi. eexists. split; [apply classify_front|]. by apply front_entry_all.
Qed.

Lemma front_entry_is_value_based_witness :
  sample_points !! 2 = Some (pt 0 0) /\
  exists mask, classify sample_points MAXIMIZE MINIMIZE = Ok mask /\
    (mask !! 2 = Some true <->
     forall q, q ∈ sample_points -> ~ spec_dominates MAXIMIZE MINIMIZE q (pt 0 0)).
Proof.
  split; [reflexivity|].
  exact (front_entry_is_value_based sample_points MAXIMIZE MINIMIZE 2 (pt 0 0) eq_refl).
Defined.

(** Values that compare equal are interchangeable in every comparison. *)
Lemma eq_le_l a a' b : F64.eq a a' = true -> F64.le a b = F64.le a' b.
Proof.
  intros He. apply eq_key in He as (k & Ha & Ha').
  apply eq_true_iff_eq. rewrite !le_key. split;
    intros (ka & kb & H1 & H2 & H3); simplify_eq; eauto 8.
Qed.

Lemma eq_le_r a a' b : F64.eq a a' = true -> F64.le b a = F64.le b a'.
Proof.
  intros He. apply eq_key in He as (k & Ha & Ha').
  apply eq_true_iff_eq. rewrite !le_key. split;
    intros (ka & kb & H1 & H2 & H3); simplify_eq; eauto 8.
Qed.

Lemma eq_lt_l a a' b : F64.eq a a' = true -> F64.lt a b = F64.lt a' b.
Proof.
  intros He. apply eq_key in He as (k & Ha & Ha').
  apply eq_true_iff_eq. rewrite !lt_key. split;
    intros (ka & kb & H1 & H2 & H3); simplify_eq; eauto 8.
Qed.

Lemma eq_lt_r a a' b : F64.eq a a' = true -> F64.lt b a = F64.lt b a'.
Proof.
  intros He. apply eq_key in He as (k & Ha & Ha').
  apply eq_true_iff_eq. rewrite !lt_key. split;
    intros (ka & kb & H1 & H2 & H3); simplify_eq; eauto 8.
Qed.

Lemma tied_dominated_alike dir_x dir_y p p' q :
  tied p p' -> spec_dominates dir_x dir_y q p -> spec_dominates dir_x dir_y q p'.
Proof.
  intros [->|[Hx Hy]]; [done|].
  destruct dir_x, dir_y; cbn;
    unfold dominates_max_max, dominates_max_min, dominates_min_max,
      dominates_min_min, F64.ge, F64.gt;
    rewrite <- ?(eq_le_l _ _ _ Hx), <- ?(eq_le_l _ _ _ Hy),
      <- ?(eq_lt_l _ _ _ Hx), <- ?(eq_lt_l _ _ _ Hy),
      <- ?(eq_le_r _ _ _ Hx), <- ?(eq_le_r _ _ _ Hy),
      <- ?(eq_lt_r _ _ _ Hx), <- ?(eq_lt_r _ _ _ Hy); done.
Qed.

Lemma tied_sym p q : tied p q -> tied q p.
Proof.
  intros [->|[Hx Hy]]; [by left|]. right.
  apply eq_key in Hx as (k & H1 & H2). apply eq_key in Hy as (k' & H3 & H4).
  split; apply eq_key; eauto.
Qed.

(** X6. Tied points are classified alike under every direction pair, the
    mixed ones included: two positions that hold the same values, or values
    that compare equal on both axes, get the same mask entry. *)
Theorem tied_points_share_entry
    (pts : list point) (dir_x dir_y : bool) (i j : nat) (pi pj : point) :
  pts !! i = Some pi ->
  pts !! j = Some pj ->
  tied pi pj ->
  exists mask, classify pts dir_x dir_y = Ok mask /\ mask !! i = mask !! j.
Proof.
  intros Hi Hj Ht. eexists. split; [apply classify_front|].
  set (mask := front (dominates dir_x dir_y) (scores_of pts)).
  assert (Hlen : length mask = length pts)
    by (unfold mask; by rewrite front_length, scores_of_length).
  assert (Hiff : mask !! i = Some true <-> mask !! j = Some true).
  { unfold mask. rewrite (front_entry_all _ _ _ _ _ Hi), (front_entry_all _ _ _ _ _ Hj).
    split; intros H q Hq Hd; apply (H q Hq).
    - eapply tied_dominated_alike; [apply tied_sym, Ht|done].
    - eapply tied_dominated_alike; [apply Ht|done]. }
  destruct (lookup_lt_is_Some_2 mask i) as [bi Hbi];
    [rewrite Hlen; by apply lookup_lt_Some in Hi|].
  destruct (lookup_lt_is_Some_2 mask j) as [bj Hbj];
    [rewrite Hlen; by apply lookup_lt_Some in Hj|].
  rewrite Hbi, Hbj in *. f_equal.
  destruct bi, bj; try done.
  - destruct Hiff as [H _]. by specialize (H eq_refl).
  - destruct Hiff as [_ H]. by specialize (H eq_refl).
Qed.

Lemma tied_points_share_entry_witness :
  signed_zero_points !! 0 = Some (F64.of_Z 0, F64.of_Z 1) /\
  signed_zero_points !! 1 = Some (F64.neg_zero, F64.of_Z 1) /\
  tied (F64.of_Z 0, F64.of_Z 1) (F64.neg_zero, F64.of_Z 1) /\
  exists mask, classify signed_zero_points MAXIMIZE MINIMIZE = Ok mask /\
               mask !! 0 = mask !! 1.
Proof.
  assert (Ht : tied (F64.of_Z 0, F64.of_Z 1) (F64.neg_zero, F64.of_Z 1))
    by (right; split; reflexivity).
  split; [reflexivity|]. split; [reflexivity|]. split; [exact Ht|].
  exact (tied_points_share_entry signed_zero_points MAXIMIZE MINIMIZE 0 1
           (F64.of_Z 0, F64.of_Z 1) (F64.neg_zero, F64.of_Z 1) eq_refl eq_refl Ht).
Defined.

(** X7. Every excluded point is dominated by a point of the front: when
    entry [i] is false, some index [j] with a true entry holds a point that
    dominates point [i].  The front alone accounts for every exclusion. *)
Theorem excluded_point_is_dominated_by_front
    (pts : list point) (dir_x dir_y : bool) (mask : list bool) (i : nat) (pi : point) :
  classify pts dir_x dir_y = Ok mask ->
  pts !! i = Some pi ->
  mask !! i = Some false ->
  exists j pj, pts !! j = Some pj /\ mask !! j = Some true /\
               spec_dominates dir_x dir_y pj pi.
Proof.
  rewrite classify_front. intros [= <-] Hi Hf.
  destruct (front_entry_false _ _ _ _ _ Hi Hf) as (j0 & p0 & _ & Hj0 & Hd0).
  set (D := filter (fun q : point =>
                     dominates dir_x dir_y [q.1; q.2] [pi.1; pi.2] = true) pts).
  assert (HD : forall q, q ∈ D <-> spec_dominates dir_x dir_y q pi /\ q ∈ pts).
  { intros q. unfold D. rewrite list_elem_of_filter, dominates_spec. done. }
  destruct (exists_undominated (spec_dominates dir_x dir_y) D) as (m & Hm & Hmax).
  - apply spec_dominates_dec.
  - apply spec_dominates_irrefl.
  - apply spec_dominates_trans.
  - intros HDnil. assert (H0 : p0 ∈ D).
    { apply HD. split; [done|]. apply list_elem_of_lookup. eauto. }
    rewrite HDnil in H0. by apply not_elem_of_nil in H0.
  - apply HD in Hm as [Hmd Hm].
    apply list_elem_of_lookup in Hm as [j Hj].
    exists j, m. split; [done|]. split; [|done].
    apply (front_entry_all _ _ _ _ _ Hj). intros q Hq Hqm.
    apply (Hmax q); [|done]. apply HD. split; [|done].
    eapply spec_dominates_trans; eauto.
Qed.

Lemma excluded_point_is_dominated_by_front_witness :
  classify sample_points MAXIMIZE MAXIMIZE = Ok [true; true; false] /\
  sample_points !! 2 = Some (pt 0 0) /\
  [true; true; false] !! 2 = Some false /\
  exists j pj, sample_points !! j = Some pj /\ [true; true; false] !! j = Some true /\
               spec_dominates MAXIMIZE MAXIMIZE pj (pt 0 0).
Proof.
  split; [reflexivity|]. split; [reflexivity|]. split; [reflexivity|].
  exact (excluded_point_is_dominated_by_front sample_points MAXIMIZE MAXIMIZE
           [true; true; false] 2 (pt 0 0) eq_refl eq_refl eq_refl).
Defined.

(** X8. More points can only clear entries: an entry that is true for the
    input extended by further points was already true for the input. *)
Theorem adding_points_only_clears
    (pts more : list point) (dir_x dir_y : bool) :
  exists mask mask',
    classify pts dir_x dir_y = Ok mask /\
    classify (pts ++ more) dir_x dir_y = Ok mask' /\
    forall i, i < length pts -> mask' !! i = Some true -> mask !! i = Some true.
Proof.
  eexists _, _. split; [apply classify_front|]. split; [apply classify_front|].
  intros i Hi Htrue.
  destruct (lookup_lt_is_Some_2 pts i Hi) as [pi Hpi].
  assert (Hpi' : (pts ++ more) !! i = Some pi) by (by apply lookup_app_l_Some).
  apply (front_entry_all _ _ _ _ _ Hpi). intros q Hq.
  apply (proj1 (front_entry_all dir_x dir_y _ _ _ Hpi') Htrue).
  apply elem_of_app. by left.
Qed.

Lemma elem_of_select {A : Type} (mask : list bool) (xs : list A) (x : A) :
  x ∈ select mask xs <-> exists i, xs !! i = Some x /\ mask !! i = Some true.
Proof.
  revert xs. induction mask as [|b mask IH]; intros [|y xs]; cbn.
  - split; [by intros H%not_elem_of_nil|by intros (i & H & _)].
  - split; [by intros H%not_elem_of_nil|by intros (i & _ & H)].
  - split; [by intros H%not_elem_of_nil|by intros (i & H & _)].
  - destruct b.
    + rewrite elem_of_cons, IH. split.
      * intros [->|(i & Hi & Hm)]; [by exists 0|by exists (S i)].
      * intros ([|i] & Hi & Hm); cbn in *; [left; congruence|right; eauto].
    + rewrite IH. split.
      * intros (i & Hi & Hm). by exists (S i).
      * intros ([|i] & Hi & Hm); cbn in *; [discriminate|eauto].
Qed.

(** X9. The front is stable: classifying the points of the front alone
    (the input indexed by its own mask) marks every one of them true. *)
Theorem front_of_front_is_all_true
    (pts : list point) (dir_x dir_y : bool) (mask : list bool) :
  classify pts dir_x dir_y = Ok mask ->
  classify (select mask pts) dir_x dir_y
  = Ok (replicate (length (select mask pts)) true).
Proof.
  rewrite classify_front. intros [= <-]. rewrite classify_front. f_equal.
  set (F := select (front (dominates dir_x dir_y) (scores_of pts)) pts).
  apply list_eq_same_length with (length F);
    [apply length_replicate|by rewrite front_length, scores_of_length|].
  intros i x y Hi Hx Hy.
  apply lookup_replicate in Hy as [-> _].
  destruct (lookup_lt_is_Some_2 F i Hi) as [pi Hpi].
  assert (Htrue : front (dominates dir_x dir_y) (scores_of F) !! i = Some true).
  { apply (front_entry_all _ _ _ _ _ Hpi). intros q Hq.
    assert (HpiF : pi ∈ F) by (apply list_elem_of_lookup; eauto).
    apply elem_of_select in HpiF as (k & Hk & Hmk).
    apply elem_of_select in Hq as (k' & Hk' & _).
    apply (proj1 (front_entry_all dir_x dir_y _ _ _ Hk) Hmk).
    apply list_elem_of_lookup. eauto. }
  congruence.
Qed.

Lemma front_of_front_is_all_true_witness :
  classify sample_points MAXIMIZE MAXIMIZE = Ok [true; true; false] /\
  classify (select [true; true; false] sample_points) MAXIMIZE MAXIMIZE
  = Ok (replicate (length (select [true; true; false] sample_points)) true).
Proof.
  split; [reflexivity|].
  exact (front_of_front_is_all_true sample_points MAXIMIZE MAXIMIZE
           [true; true; false] eq_refl).
Defined.

Lemma nan_le_l a b : F64.is_nan a = true -> F64.le a b = false.
Proof. by destruct a. Qed.

Lemma nan_le_r a b : F64.is_nan a = true -> F64.le b a = false.
Proof. destruct a; try done. intros _. by destruct b as [[]|[]| |[]]. Qed.

Lemma nan_lt_l a b : F64.is_nan a = true -> F64.lt a b = false.
Proof. by destruct a. Qed.

Lemma nan_lt_r a b : F64.is_nan a = true -> F64.lt b a = false.
Proof. destruct a; try done. intros _. by destruct b as [[]|[]| |[]]. Qed.

(** X10. A point with a [NaN] coordinate is always on the front and
    excludes nobody, under every direction pair: it neither dominates nor
    is dominated, because every comparison with [NaN] is false. *)
Theorem nan_point_is_on_front_and_harmless
    (pts : list point) (dir_x dir_y : bool) (i : nat) (pi : point) :
  pts !! i = Some pi ->
  F64.is_nan pi.1 = true \/ F64.is_nan pi.2 = true ->
  (exists mask, classify pts dir_x dir_y = Ok mask /\ mask !! i = Some true) /\
  (forall q, ~ spec_dominates dir_x dir_y q pi /\ ~ spec_dominates dir_x dir_y pi q).
Proof.
  intros Hi Hnan.
  assert (Hfree : forall q, ~ spec_dominates dir_x dir_y q pi /\
                            ~ spec_dominates dir_x dir_y pi q).
  { intros q.
    destruct dir_x, dir_y; cbn;
      unfold dominates_max_max, dominates_max_min, dominates_min_max,
        dominates_min_min, F64.ge, F64.gt;
      destruct Hnan as [Hn|Hn];
      pose proof (nan_le_l _ q.1 Hn); pose proof (nan_le_r _ q.1 Hn);
      pose proof (nan_lt_l _ q.1 Hn); pose proof (nan_lt_r _ q.1 Hn);
      pose proof (nan_le_l _ q.2 Hn); pose proof (nan_le_r _ q.2 Hn);
      pose proof (nan_lt_l _ q.2 Hn); pose proof (nan_lt_r _ q.2 Hn);
      unfold F64.le, F64.lt in *;
      split; intuition congruence. }
  split; [|exact Hfree].
  eexists. split; [apply classify_front|].
  apply (front_entry_all _ _ _ _ _ Hi). intros q _. apply Hfree.
Qed.

Lemma nan_point_is_on_front_and_harmless_witness :
  points_with_nan !! 0 = Some (F64.nan, F64.of_Z 0) /\
  (F64.is_nan (F64.nan, F64.of_Z 0).1 = true \/
   F64.is_nan (F64.nan, F64.of_Z 0).2 = true) /\
  (exists mask, classify points_with_nan MINIMIZE MAXIMIZE = Ok mask /\
                mask !! 0 = Some true) /\
  (forall q, ~ spec_dominates MINIMIZE MAXIMIZE q (F64.nan, F64.of_Z 0) /\
             ~ spec_dominates MINIMIZE MAXIMIZE (F64.nan, F64.of_Z 0) q).
Proof.
  assert (Hn : F64.is_nan (F64.nan, F64.of_Z 0).1 = true \/
               F64.is_nan (F64.nan, F64.of_Z 0).2 = true) by (left; reflexivity).
  split; [reflexivity|]. split; [exact Hn|].
  exact (nan_point_is_on_front_and_harmless points_with_nan MINIMIZE MAXIMIZE 0
           (F64.nan, F64.of_Z 0) eq_refl Hn).
Defined.

(** X11. Exchanging the two axes is harmless for the mixed pairs as well:
    with the coordinates of every point and the two directions exchanged,
    the mask is the same, for all four direction pairs. *)
Theorem front_invariant_under_axis_and_direction_swap
    (pts : list point) (dir_x dir_y : bool) :
  classify (map swap_xy pts) dir_y dir_x = classify pts dir_x dir_y.
Proof.
  destruct dir_x, dir_y; apply classify_swap_axes.
Qed.

(** * The caller [create_scatter_plot] *)

Lemma pbind_done {A B : Type} (c : P A) (k : A -> P B) s a s' :
  c s = Done (a, s') -> pbind c k s = k a s'.
Proof. unfold pbind; intros ->; reflexivity. Qed.

Lemma zip_with_scores_of (x y : list float64) :
  zip_with (fun a b => [a; b]) x y = scores_of (zip x y).
Proof.
  revert y. induction x as [|a x IH]; intros [|b y]; cbn; try done.
  by rewrite IH.
Qed.

Lemma select_zip {A B : Type} (mask : list bool) (x : list A) (y : list B) :
  select mask (zip x y) = zip (select mask x) (select mask y).
Proof.
  revert x y. induction mask as [|b mask IH]; intros [|a x] [|c y]; cbn; try done.
  - by destruct b, (select mask x).
  - destruct b; cbn; by rewrite IH.
Qed.

Lemma select_sublist {A : Type} (mask : list bool) (xs : list A) :
  sublist (select mask xs) xs.
Proof.
  revert xs. induction mask as [|b mask IH]; intros [|x xs]; cbn;
    try apply sublist_nil_l.
  destruct b; [by apply sublist_skip|by apply sublist_cons].
Qed.

Lemma select_nonempty {A : Type} (mask : list bool) (xs : list A) i :
  mask !! i = Some true -> i < length xs -> select mask xs ≠ [].
Proof.
  intros Hm Hi.
  destruct (lookup_lt_is_Some_2 xs i Hi) as [x Hx].
  assert (Hin : x ∈ select mask xs) by (apply elem_of_select; eauto).
  intros E. rewrite E in Hin. by apply not_elem_of_nil in Hin.
Qed.

Lemma insert_fresh_keeps (s : store) l o v :
  s !! l = Some o -> <[fresh (dom s) := v]> s !! l = Some o.
Proof.
  intros Hl. rewrite lookup_insert_ne; [done|]. intros E.
  assert (H : s !! fresh (dom s) = None) by apply not_elem_of_dom, is_fresh.
  congruence.
Qed.

(** The chain of conditions calls the method on a copy of the scores with
    the directions [plot_dir_x], [plot_dir_y]. *)
Lemma plot_branch column_x column_y scores :
  (if column_in column_x [wall_rating; roof_rating]
      && column_in column_y [wall_rating; wall_rating] then
     scores' <~ lift (np_copy scores) ;; lift (identify_pareto scores' true true)
   else if column_in column_x [wall_rating; roof_rating] then
     scores' <~ lift (np_copy scores) ;; lift (identify_pareto scores' true false)
   else if column_in column_y [wall_rating; roof_rating] then
     scores' <~ lift (np_copy scores) ;; lift (identify_pareto scores' false true)
   else
     scores' <~ lift (np_copy scores) ;; lift (identify_pareto scores' false false))
  = (scores' <~ lift (np_copy scores) ;;
     lift (identify_pareto scores' (plot_dir_x column_x) (plot_dir_y column_x column_y))).
Proof.
  unfold plot_dir_x, plot_dir_y.
  destruct (column_in column_x [wall_rating; roof_rating]);
    destruct (column_in column_y [wall_rating; wall_rating]);
    destruct (column_in column_y [wall_rating; roof_rating]); reflexivity.
Qed.

(** The run of the Pareto branch on two columns of one length. *)
Lemma create_scatter_plot_run dataframe column_x column_y x y s :
  dataframe !! column_x = Some x ->
  dataframe !! column_y = Some y ->
  length x = length y ->
  column_in column_x excluded_columns = false ->
  column_in column_y excluded_columns = false ->
  exists s',
    create_scatter_plot dataframe column_x column_y s
    = Done ([Series x y "data points";
             Series (select (front (dominates (plot_dir_x column_x)
                                      (plot_dir_y column_x column_y))
                               (scores_of (zip x y))) x)
                    (select (front (dominates (plot_dir_x column_x)
                                      (plot_dir_y column_x column_y))
                               (scores_of (zip x y))) y)
                    "pareto front"], s') /\
    (forall l o, s !! l = Some o -> s' !! l = Some o).
Proof.
  intros Hx Hy Hlen Hex Hey.
  set (mask := front (dominates (plot_dir_x column_x) (plot_dir_y column_x column_y))
                 (scores_of (zip x y))).
  assert (Hmask : length mask = length x).
  { unfold mask. rewrite front_length, scores_of_length, length_zip. lia. }
  set (l1 := fresh (dom s)).
  set (s1 := <[l1 := NdFloat (scores_of (zip x y))]> s).
  set (l2 := fresh (dom s1)).
  set (s2 := <[l2 := NdFloat (scores_of (zip x y))]> s1).
  set (l3 := fresh (dom s2)).
  set (s3 := <[l3 := NdBool mask]> s2).
  assert (H1 : s !! l1 = None) by apply not_elem_of_dom, is_fresh.
  assert (H2 : s1 !! l2 = None) by apply not_elem_of_dom, is_fresh.
  assert (H3 : s2 !! l3 = None) by apply not_elem_of_dom, is_fresh.
  exists s3. split.
  - unfold create_scatter_plot. rewrite Hex, Hey. cbn [orb].
    unfold frame_column. rewrite Hx, Hy.
    erewrite pbind_done; [|reflexivity].
    erewrite pbind_done; [|reflexivity].
    erewrite pbind_done;
      [|unfold np_vstack_T; rewrite decide_True by done;
        rewrite zip_with_scores_of; reflexivity].
    fold l1. fold s1. rewrite plot_branch.
    erewrite pbind_done.
    2:{ erewrite pbind_done.
        2:{ unfold lift, np_copy. unfold s1 at 1. rewrite lookup_insert_eq.
            reflexivity. }
        fold s1. fold l2. fold s2. unfold lift.
        rewrite (identify_pareto_points s2 l2 (zip x y))
          by (unfold s2; apply lookup_insert_eq).
        reflexivity. }
    fold l3. fold mask. fold s3.
    erewrite pbind_done.
    2:{ unfold lift, series_getitem. unfold s3 at 1. rewrite lookup_insert_eq.
        rewrite decide_True by done. reflexivity. }
    erewrite pbind_done.
    2:{ unfold lift, series_getitem. unfold s3 at 1. rewrite lookup_insert_eq.
        rewrite decide_True by congruence. reflexivity. }
    reflexivity.
  - intros l o Hl. unfold s3, l3, s2, l2, s1, l1.
    by do 3 apply insert_fresh_keeps.
Qed.



(** X13. The highlighted points are data points in data order, and there
    is at least one whenever the columns are not empty. *)
Theorem create_scatter_plot_front_is_nonempty_sublist
    (dataframe : gmap string (list float64)) (column_x column_y : string)
    (x y : list float64) (s : store) :
  dataframe !! column_x = Some x ->
  dataframe !! column_y = Some y ->
  length x = length y ->
  column_in column_x excluded_columns = false ->
  column_in column_y excluded_columns = false ->
  exists front_x front_y s',
    create_scatter_plot dataframe column_x column_y s
    = Done ([Series x y "data points"; Series front_x front_y "pareto front"], s') /\
    sublist (zip front_x front_y) (zip x y) /\
    (x ≠ [] -> zip front_x front_y ≠ []).
Proof.
  intros Hx Hy Hlen Hex Hey.
  destruct (create_scatter_plot_run dataframe column_x column_y x y s
              Hx Hy Hlen Hex Hey) as (s' & Hrun & _).
  eexists _, _, s'. split; [exact Hrun|].
  rewrite <- select_zip. split; [apply select_sublist|].
  intros Hne.
  assert (Hpts : zip x y ≠ []).
  { destruct x, y; try done. }
  destruct (front_has_true (plot_dir_x column_x) (plot_dir_y column_x column_y)
              (zip x y) Hpts) as [i Hi].
  apply (select_nonempty _ _ i Hi).
  apply lookup_lt_Some in Hi.
  by rewrite front_length, scores_of_length in Hi.
Qed.

Lemma create_scatter_plot_front_is_nonempty_sublist_witness :
  sample_frame !! wall_rating = Some [F64.of_Z 1; F64.of_Z 2; F64.of_Z 0] /\
  sample_frame !! roof_rating = Some [F64.of_Z 2; F64.of_Z 1; F64.of_Z 0] /\
  length [F64.of_Z 1; F64.of_Z 2; F64.of_Z 0]
    = length [F64.of_Z 2; F64.of_Z 1; F64.of_Z 0] /\
  column_in wall_rating excluded_columns = false /\
  column_in roof_rating excluded_columns = false /\
  exists front_x front_y s',
    create_scatter_plot sample_frame wall_rating roof_rating sample_store
    = Done ([Series [F64.of_Z 1; F64.of_Z 2; F64.of_Z 0]
                    [F64.of_Z 2; F64.of_Z 1; F64.of_Z 0] "data points";
             Series front_x front_y "pareto front"], s') /\
    sublist (zip front_x front_y)
      (zip [F64.of_Z 1; F64.of_Z 2; F64.of_Z 0] [F64.of_Z 2; F64.of_Z 1; F64.of_Z 0]) /\
    ([F64.of_Z 1; F64.of_Z 2; F64.of_Z 0] ≠ [] -> zip front_x front_y ≠ []).
Proof.
  split; [reflexivity|]. split; [reflexivity|]. split; [reflexivity|].
  split; [reflexivity|]. split; [reflexivity|].
  exact (create_scatter_plot_front_is_nonempty_sublist sample_frame wall_rating
           roof_rating _ _ sample_store eq_refl eq_refl eq_refl eq_refl eq_refl).
Defined.

Lemma rating_not_excluded :
  column_in wall_rating excluded_columns = false /\
  column_in roof_rating excluded_columns = false.
Proof. split; reflexivity. Qed.

(** X14. The two ratings are not treated alike on the y axis.  With the
    wall rating on x and the roof rating on y the front is computed with
    (MAXIMIZE, MINIMIZE): the roof rating is minimised.  With the axes the
    other way round it is computed with (MAXIMIZE, MAXIMIZE). *)
Theorem roof_rating_on_y_is_minimised
    (dataframe : gmap string (list float64)) (wall roof : list float64) (s : store) :
  dataframe !! wall_rating = Some wall ->
  dataframe !! roof_rating = Some roof ->
  length wall = length roof ->
  (exists mask s',
     create_scatter_plot dataframe wall_rating roof_rating s
     = Done ([Series wall roof "data points";
              Series (select mask wall) (select mask roof) "pareto front"], s') /\
     classify (zip wall roof) MAXIMIZE MINIMIZE = Ok mask) /\
  (exists mask s',
     create_scatter_plot dataframe roof_rating wall_rating s
     = Done ([Series roof wall "data points";
              Series (select mask roof) (select mask wall) "pareto front"], s') /\
     classify (zip roof wall) MAXIMIZE MAXIMIZE = Ok mask).
Proof.
  intros Hw Hr Hlen. destruct rating_not_excluded as [Hew Her]. split.
  - destruct (create_scatter_plot_run dataframe wall_rating roof_rating wall roof s
                Hw Hr Hlen Hew Her) as (s' & Hrun & _).
    eexists _, s'. split; [exact Hrun|]. apply classify_front.
  - destruct (create_scatter_plot_run dataframe roof_rating wall_rating roof wall s
                Hr Hw (eq_sym Hlen) Her Hew) as (s' & Hrun & _).
    eexists _, s'. split; [exact Hrun|]. apply classify_front.
Qed.

Lemma roof_rating_on_y_is_minimised_witness :
  sample_frame !! wall_rating = Some [F64.of_Z 1; F64.of_Z 2; F64.of_Z 0] /\
  sample_frame !! roof_rating = Some [F64.of_Z 2; F64.of_Z 1; F64.of_Z 0] /\
  length [F64.of_Z 1; F64.of_Z 2; F64.of_Z 0]
    = length [F64.of_Z 2; F64.of_Z 1; F64.of_Z 0] /\
  (exists mask s',
     create_scatter_plot sample_frame wall_rating roof_rating sample_store
     = Done ([Series [F64.of_Z 1; F64.of_Z 2; F64.of_Z 0]
                     [F64.of_Z 2; F64.of_Z 1; F64.of_Z 0] "data points";
              Series (select mask [F64.of_Z 1; F64.of_Z 2; F64.of_Z 0])
                     (select mask [F64.of_Z 2; F64.of_Z 1; F64.of_Z 0])
                     "pareto front"], s') /\
     classify (zip [F64.of_Z 1; F64.of_Z 2; F64.of_Z 0]
                   [F64.of_Z 2; F64.of_Z 1; F64.of_Z 0]) MAXIMIZE MINIMIZE = Ok mask) /\
  (exists mask s',
     create_scatter_plot sample_frame roof_rating wall_rating sample_store
     = Done ([Series [F64.of_Z 2; F64.of_Z 1; F64.of_Z 0]
                     [F64.of_Z 1; F64.of_Z 2; F64.of_Z 0] "data points";
              Series (select mask [F64.of_Z 2; F64.of_Z 1; F64.of_Z 0])
                     (select mask [F64.of_Z 1; F64.of_Z 2; F64.of_Z 0])
                     "pareto front"], s') /\
     classify (zip [F64.of_Z 2; F64.of_Z 1; F64.of_Z 0]
                   [F64.of_Z 1; F64.of_Z 2; F64.of_Z 0]) MAXIMIZE MAXIMIZE = Ok mask).
Proof.
  split; [reflexivity|]. split; [reflexivity|]. split; [reflexivity|].
  exact (roof_rating_on_y_is_minimised sample_frame _ _ sample_store
           eq_refl eq_refl eq_refl).
Defined.

(** On the sample frame the two orders of the ratings highlight different
    designs. *)
Example rating_axes_order_matters :
  classify (zip [F64.of_Z 1; F64.of_Z 2; F64.of_Z 0]
                [F64.of_Z 2; F64.of_Z 1; F64.of_Z 0]) MAXIMIZE MINIMIZE
    = Ok [false; true; true] /\
  classify (zip [F64.of_Z 2; F64.of_Z 1; F64.of_Z 0]
                [F64.of_Z 1; F64.of_Z 2; F64.of_Z 0]) MAXIMIZE MAXIMIZE
    = Ok [true; true; false].
Proof. split; reflexivity. Qed.

Lemma zip_swap (x y : list float64) : zip y x = map swap_xy (zip x y).
Proof.
  revert y. induction x as [|a x IH]; intros [|b y]; cbn; try done.
  by rewrite IH.
Qed.

Lemma column_in_wall_wall c :
  column_in c [wall_rating; wall_rating] = true ->
  column_in c [wall_rating; roof_rating] = true.
Proof.
  unfold column_in. rewrite !bool_decide_eq_true, !elem_of_cons.
  intros [->|[->|H]]; auto.
Qed.

(** X15. Unless both plotted columns are ratings, the order of the axes
    does not matter: plotting the two columns the other way round
    highlights the same rows. *)
Theorem exchanging_axes_highlights_same_rows
    (dataframe : gmap string (list float64)) (column_x column_y : string)
    (x y : list float64) (s : store) :
  dataframe !! column_x = Some x ->
  dataframe !! column_y = Some y ->
  length x = length y ->
  column_in column_x excluded_columns = false ->
  column_in column_y excluded_columns = false ->
  column_in column_x [wall_rating; roof_rating] = false \/
  column_in column_y [wall_rating; roof_rating] = false ->
  exists mask s1 s2,
    create_scatter_plot dataframe column_x column_y s
    = Done ([Series x y "data points";
             Series (select mask x) (select mask y) "pareto front"], s1) /\
    create_scatter_plot dataframe column_y column_x s
    = Done ([Series y x "data points";
             Series (select mask y) (select mask x) "pareto front"], s2).
Proof.
  intros Hx Hy Hlen Hex Hey Hrat.
  destruct (create_scatter_plot_run dataframe column_x column_y x y s
              Hx Hy Hlen Hex Hey) as (s1 & Hrun1 & _).
  destruct (create_scatter_plot_run dataframe column_y column_x y x s
              Hy Hx (eq_sym Hlen) Hey Hex) as (s2 & Hrun2 & _).
  eexists _, s1, s2. split; [exact Hrun1|]. rewrite Hrun2.
  assert (Hdirs : plot_dir_x column_y = plot_dir_y column_x column_y /\
                  plot_dir_y column_y column_x = plot_dir_x column_x).
  { unfold plot_dir_x, plot_dir_y.
    pose proof (column_in_wall_wall column_x) as Hwx.
    pose proof (column_in_wall_wall column_y) as Hwy.
    destruct (column_in column_x [wall_rating; roof_rating]),
      (column_in column_y [wall_rating; roof_rating]),
      (column_in column_x [wall_rating; wall_rating]),
      (column_in column_y [wall_rating; wall_rating]);
      destruct Hrat; try done;
      try (by specialize (Hwx eq_refl)); try (by specialize (Hwy eq_refl)). }
  destruct Hdirs as [-> ->].
  assert (Hmask : front (dominates (plot_dir_y column_x column_y) (plot_dir_x column_x))
                    (scores_of (zip y x))
                  = front (dominates (plot_dir_x column_x) (plot_dir_y column_x column_y))
                      (scores_of (zip x y))).
  { pose proof (classify_swap_axes (zip x y) (plot_dir_x column_x)
                  (plot_dir_y column_x column_y)) as Hswap.
    rewrite <- zip_swap, !classify_front in Hswap. by injection Hswap. }
  by rewrite Hmask.
Qed.

Lemma exchanging_axes_highlights_same_rows_witness :
  sample_frame !! wall_rating = Some [F64.of_Z 1; F64.of_Z 2; F64.of_Z 0] /\
  sample_frame !! "embodied carbon (kgCO2e)" = Some [F64.of_Z 5; F64.of_Z 3; F64.of_Z 4] /\
  length [F64.of_Z 1; F64.of_Z 2; F64.of_Z 0]
    = length [F64.of_Z 5; F64.of_Z 3; F64.of_Z 4] /\
  column_in wall_rating excluded_columns = false /\
  column_in "embodied carbon (kgCO2e)" excluded_columns = false /\
  (column_in wall_rating [wall_rating; roof_rating] = false \/
   column_in "embodied carbon (kgCO2e)" [wall_rating; roof_rating] = false) /\
  exists mask s1 s2,
    create_scatter_plot sample_frame wall_rating "embodied carbon (kgCO2e)" sample_store
    = Done ([Series [F64.of_Z 1; F64.of_Z 2; F64.of_Z 0]
                    [F64.of_Z 5; F64.of_Z 3; F64.of_Z 4] "data points";
             Series (select mask [F64.of_Z 1; F64.of_Z 2; F64.of_Z 0])
                    (select mask [F64.of_Z 5; F64.of_Z 3; F64.of_Z 4])
                    "pareto front"], s1) /\
    create_scatter_plot sample_frame "embodied carbon (kgCO2e)" wall_rating sample_store
    = Done ([Series [F64.of_Z 5; F64.of_Z 3; F64.of_Z 4]
                    [F64.of_Z 1; F64.of_Z 2; F64.of_Z 0] "data points";
             Series (select mask [F64.of_Z 5; F64.of_Z 3; F64.of_Z 4])
                    (select mask [F64.of_Z 1; F64.of_Z 2; F64.of_Z 0])
                    "pareto front"], s2).
Proof.
  assert (Hrat : column_in wall_rating [wall_rating; roof_rating] = false \/
                 column_in "embodied carbon (kgCO2e)" [wall_rating; roof_rating] = false)
    by (right; reflexivity).
  split; [reflexivity|]. split; [reflexivity|]. split; [reflexivity|].
  split; [reflexivity|]. split; [reflexivity|]. split; [exact Hrat|].
  exact (exchanging_axes_highlights_same_rows sample_frame wall_rating
           "embodied carbon (kgCO2e)" _ _ sample_store
           eq_refl eq_refl eq_refl eq_refl eq_refl Hrat).
Defined.

(** * Markers and highlights *)

Lemma nth_next_drop items k n :
  items ≠ [] -> k <= length items ->
  nth_next n (Cycle (drop k items) items) = items !! ((k + n) mod length items).
Proof.
  intros Hne. revert k. induction n as [|n IH]; intros k Hk.
  - rewrite Nat.add_0_r.
    destruct (decide (k = length items)) as [->|Hlt].
    + rewrite drop_all, Nat.Div0.mod_same. destruct items; [done|reflexivity].
    + rewrite Nat.mod_small by lia.
      destruct (lookup_lt_is_Some_2 items k) as [x Hx]; [lia|].
      rewrite (drop_S _ _ _ Hx). cbn. by rewrite Hx.
  - destruct (decide (k = length items)) as [->|Hlt].
    + rewrite drop_all. destruct items as [|x rest]; [done|].
      cbn [nth_next next pending saved].
      change (Cycle rest (x :: rest)) with (Cycle (drop 1 (x :: rest)) (x :: rest)).
      rewrite IH by (cbn; lia). f_equal.
      replace (length (x :: rest) + S n) with (1 + n + 1 * length (x :: rest)) by lia.
      by rewrite Nat.Div0.mod_add.
    + destruct (lookup_lt_is_Some_2 items k) as [x Hx]; [lia|].
      rewrite (drop_S _ _ _ Hx). cbn [nth_next next pending saved].
      rewrite IH by lia. f_equal. f_equal. lia.
Qed.

(** X16. The markers never run out and repeat with the period of the
    list: call number [n] of [next] on the cycle of a non-empty list
    returns item [n mod length] of the list. *)
Theorem cycle_yields_items_in_turn (items : list string) (n : nat) :
  items ≠ [] ->
  nth_next n (itertools_cycle items) = items !! (n mod length items).
Proof.
  intros Hne. unfold itertools_cycle.
  change items with (drop 0 items) at 1.
  rewrite nth_next_drop by (done || lia). reflexivity.
Qed.

Lemma cycle_yields_items_in_turn_witness :
  marker_list ≠ [] /\
  nth_next 7 (itertools_cycle marker_list) = marker_list !! (7 mod length marker_list).
Proof.
  assert (Hne : marker_list ≠ []) by discriminate.
  split; [exact Hne|].
  exact (cycle_yields_items_in_turn marker_list 7 Hne).
Defined.

Lemma marker_to_unicode_known marker :
  marker ∈ marker_list -> marker_to_unicode marker ≠ "?".
Proof.
  unfold marker_list. rewrite !elem_of_cons, elem_of_nil.
  intros [->|[->|[->|[->|[->|[->|[]]]]]]]; by vm_compute.
Qed.

Lemma marker_to_unicode_unknown marker :
  marker ∉ marker_list -> marker_to_unicode marker = "?".
Proof.
  unfold marker_list. rewrite !not_elem_of_cons. intros (H1 & H2 & H3 & H4 & H5 & H6 & _).
  unfold marker_to_unicode, symbols.
  rewrite !lookup_insert_ne, lookup_singleton_ne by congruence. reflexivity.
Qed.

(** X17. [marker_to_unicode] falls back to ['?'] exactly for the markers
    outside [marker_list]; so the symbol shown for a highlighted point,
    whose marker comes from the cycle over [marker_list], is never
    ['?']. *)
Theorem marker_symbol_is_defined_on_marker_list :
  (forall marker, marker_to_unicode marker = "?" <-> marker ∉ marker_list) /\
  (forall n, exists marker,
     nth_next n (itertools_cycle marker_list) = Some marker /\
     marker_to_unicode marker ≠ "?").
Proof.
  split.
  - intros marker. split.
    + intros H Hin. by apply marker_to_unicode_known in Hin.
    + apply marker_to_unicode_unknown.
  - intros n.
    change (itertools_cycle marker_list) with (Cycle (drop 0 marker_list) marker_list).
    rewrite nth_next_drop by (discriminate || (cbn; lia)). cbn [Nat.add].
    destruct (lookup_lt_is_Some_2 marker_list (n mod length marker_list)) as [m Hm].
    { apply Nat.mod_upper_bound. discriminate. }
    exists m. split; [done|].
    apply marker_to_unicode_known. apply list_elem_of_lookup. eauto.
Qed.

(** * Highlights *)

Lemma no_highlights_consistent : consistent no_highlights.
Proof.
  split; [|split]; cbn.
  - intros i l H. by rewrite lookup_empty in H.
  - intros i j l H. by rewrite lookup_empty in H.
  - intros l [x H]. by rewrite lookup_empty in H.
Qed.

Lemma highlight_point_consistent x y marker index st :
  consistent st -> consistent (highlight_point x y marker index st).
Proof.
  intros (Hon & Hinj & Hold). unfold highlight_point. split; [|split]; cbn.
  - intros i l Hi. destruct (decide (index = i)) as [->|Hne].
    + rewrite lookup_insert_eq in Hi. injection Hi as <-.
      rewrite lookup_insert_eq. eauto.
    + rewrite lookup_insert_ne in Hi by done.
      destruct (decide (next_line st = l)) as [->|Hl].
      * rewrite lookup_insert_eq. eauto.
      * rewrite lookup_insert_ne by done. eauto.
  - intros i j l Hi Hj.
    apply lookup_insert_Some in Hi as [[Ei El]|[Hni Hi]];
      apply lookup_insert_Some in Hj as [[Ej El']|[Hnj Hj]].
    + congruence.
    + subst l. apply Hon, Hold in Hj. lia.
    + subst l. apply Hon, Hold in Hi. lia.
    + eauto.
  - intros l Hl. destruct (decide (next_line st = l)) as [<-|Hne]; [lia|].
    rewrite lookup_insert_ne in Hl by done. apply Hold in Hl. lia.
Qed.

Lemma remove_highlight_consistent index st :
  consistent st ->
  exists st', remove_highlight index st = Some st' /\ consistent st'.
Proof.
  intros (Hon & Hinj & Hold). unfold remove_highlight.
  destruct (highlighted_points st !! index) as [line|] eqn:Hidx.
  2:{ exists st. by repeat split. }
  destruct (Hon _ _ Hidx) as [ln Hline]. rewrite Hline.
  eexists. split; [reflexivity|]. split; [|split]; cbn.
  - intros i l Hi. apply lookup_delete_Some in Hi as [Hne Hi].
    rewrite lookup_delete_ne; [eauto|].
    intros ->. apply Hne. eauto.
  - intros i j l Hi Hj.
    apply lookup_delete_Some in Hi as [_ Hi].
    apply lookup_delete_Some in Hj as [_ Hj]. eauto.
  - intros l [x Hl]. apply lookup_delete_Some in Hl as [_ Hl]. eauto.
Qed.

(** X18. Whatever points are clicked and whatever popups are closed, in
    any order and any number of times, [remove_highlight] never fails and
    the bookkeeping stays consistent: every line the dictionary tracks is
    on the axes, and no line is tracked under two indices. *)
Theorem highlights_stay_consistent (events : list gui_event) :
  exists st, run_events events no_highlights = Some st /\ consistent st.
Proof.
  assert (H : forall st0, consistent st0 ->
            exists st, run_events events st0 = Some st /\ consistent st).
  { induction events as [|[x y marker index|index] events IH]; intros st0 Hc; cbn.
    - eauto.
    - apply IH. by apply highlight_point_consistent.
    - destruct (remove_highlight_consistent index st0 Hc) as (st' & -> & Hc').
      by apply IH. }
  apply H, no_highlights_consistent.
Qed.

(** X19. [remove_highlight] is safe to call again: after a call that
    succeeded, a second call for the same index changes nothing and does
    not fail.  (Closing a popup can deliver its destroy event more than
    once.) *)
Theorem remove_highlight_twice (index : Z) (st st' : highlights) :
  remove_highlight index st = Some st' ->
  remove_highlight index st' = Some st'.
Proof.
  unfold remove_highlight at 1.
  destruct (highlighted_points st !! index) as [line|] eqn:Hidx.
  - destruct (ax_lines st !! line); [|done]. intros [= <-].
    unfold remove_highlight. cbn. by rewrite lookup_delete_eq.
  - intros [= <-]. unfold remove_highlight. by rewrite Hidx.
Qed.

Lemma remove_highlight_twice_witness :
  remove_highlight 7 (highlight_point (F64.of_Z 1) (F64.of_Z 2) "^" 7 no_highlights)
    = Some (Highlights ∅ ∅ 2%positive) /\
  remove_highlight 7 (Highlights ∅ ∅ 2%positive) = Some (Highlights ∅ ∅ 2%positive).
Proof.
  assert (H : remove_highlight 7
                (highlight_point (F64.of_Z 1) (F64.of_Z 2) "^" 7 no_highlights)
              = Some (Highlights ∅ ∅ 2%positive)) by reflexivity.
  split; [exact H|].
  exact (remove_highlight_twice 7 _ _ H).
Defined.

(** X20. Highlighting a design that is not highlighted and closing its
    popup restores the axes and the dictionary. *)
Theorem highlight_then_remove_restores
    (x y : float64) (marker : string) (index : Z) (st : highlights) :
  consistent st ->
  highlighted_points st !! index = None ->
  exists st',
    remove_highlight index (highlight_point x y marker index st) = Some st' /\
    ax_lines st' = ax_lines st /\
    highlighted_points st' = highlighted_points st.
Proof.
  intros (_ & _ & Hold) Hidx. unfold remove_highlight, highlight_point. cbn.
  rewrite !lookup_insert_eq. eexists. split; [reflexivity|]. cbn. split.
  - rewrite delete_insert_eq. apply delete_id.
    destruct (ax_lines st !! next_line st) eqn:E; [|done].
    assert (H : (next_line st < next_line st)%positive) by (apply Hold; eauto). lia.
  - rewrite delete_insert_eq. by apply delete_id.
Qed.

Lemma highlight_then_remove_restores_witness :
  consistent no_highlights /\
  highlighted_points no_highlights !! 7%Z = None /\
  exists st',
    remove_highlight 7 (highlight_point (F64.of_Z 1) (F64.of_Z 2) "^" 7 no_highlights)
      = Some st' /\
    ax_lines st' = ax_lines no_highlights /\
    highlighted_points st' = highlighted_points no_highlights.
Proof.
  split; [exact no_highlights_consistent|]. split; [reflexivity|].
  exact (highlight_then_remove_restores (F64.of_Z 1) (F64.of_Z 2) "^" 7 no_highlights
           no_highlights_consistent eq_refl).
Defined.

Lemma highlight_point_orphan old ln x y marker index st :
  consistent st -> orphan old ln st ->
  orphan old ln (highlight_point x y marker index st).
Proof.
  intros (_ & _ & Hold) [Hax Hno]. split; cbn.
  - rewrite lookup_insert_ne; [done|]. intros E.
    assert (H : (old < next_line st)%positive) by (apply Hold; eauto). lia.
  - intros i Hi. apply lookup_insert_Some in Hi as [[_ E]|[_ Hi]].
    + assert (H : (old < next_line st)%positive) by (apply Hold; eauto). lia.
    + by apply (Hno i).
Qed.

Lemma remove_highlight_orphan old ln index st st' :
  orphan old ln st -> remove_highlight index st = Some st' -> orphan old ln st'.
Proof.
  intros [Hax Hno]. unfold remove_highlight.
  destruct (highlighted_points st !! index) as [line|] eqn:Hidx.
  - destruct (ax_lines st !! line); [|done]. intros [= <-]. split; cbn.
    + rewrite lookup_delete_ne; [done|]. intros ->. by apply (Hno index).
    + intros i Hi. apply lookup_delete_Some in Hi as [_ Hi]. by apply (Hno i).
  - by intros [= <-].
Qed.

Lemma run_events_orphan old ln events st st' :
  consistent st -> orphan old ln st ->
  run_events events st = Some st' -> orphan old ln st'.
Proof.
  revert st. induction events as [|[x y marker index|index] events IH];
    intros st Hc Ho; cbn.
  - by intros [= <-].
  - apply IH; [by apply highlight_point_consistent|by apply highlight_point_orphan].
  - destruct (remove_highlight_consistent index st Hc) as (st1 & Hrm & Hc1).
    rewrite Hrm. apply IH; [done|]. by eapply remove_highlight_orphan.
Qed.

(** X21. Highlighting a design that is already highlighted orphans its
    earlier line: the dictionary entry is overwritten, so the earlier line
    stays on the axes and no later click or closed popup removes it. *)
Theorem rehighlighting_orphans_earlier_line
    (x y : float64) (marker : string) (index : Z) (st st' : highlights)
    (old : positive) (ln : line2d) (events : list gui_event) :
  consistent st ->
  highlighted_points st !! index = Some old ->
  ax_lines st !! old = Some ln ->
  run_events events (highlight_point x y marker index st) = Some st' ->
  ax_lines st' !! old = Some ln /\
  (forall i, highlighted_points st' !! i ≠ Some old).
Proof.
  intros Hc Hidx Hax Hrun.
  apply (run_events_orphan old ln events (highlight_point x y marker index st));
    [by apply highlight_point_consistent| |done].
  destruct Hc as (Hon & Hinj & Hold).
  assert (Hlt : (old < next_line st)%positive) by (apply Hold; eauto).
  split; cbn.
  - rewrite lookup_insert_ne; [done|lia].
  - intros i Hi. apply lookup_insert_Some in Hi as [[_ E]|[Hne Hi]]; [lia|].
    apply Hne. by apply (Hinj index i old).
Qed.

Lemma rehighlighting_orphans_earlier_line_witness :
  consistent once_highlighted /\
  highlighted_points once_highlighted !! 7%Z = Some 1%positive /\
  ax_lines once_highlighted !! 1%positive
    = Some (Line2D (F64.of_Z 1) (F64.of_Z 2) "^") /\
  run_events [PopupClosed 7; PopupClosed 7]
    (highlight_point (F64.of_Z 1) (F64.of_Z 2) "s" 7 once_highlighted)
    = Some (Highlights {[ 1%positive := Line2D (F64.of_Z 1) (F64.of_Z 2) "^" ]}
              ∅ 3%positive) /\
  ax_lines (Highlights {[ 1%positive := Line2D (F64.of_Z 1) (F64.of_Z 2) "^" ]}
              ∅ 3%positive) !! 1%positive
    = Some (Line2D (F64.of_Z 1) (F64.of_Z 2) "^") /\
  (forall i, highlighted_points
               (Highlights {[ 1%positive := Line2D (F64.of_Z 1) (F64.of_Z 2) "^" ]}
                  ∅ 3%positive) !! i ≠ Some 1%positive).
Proof.
  assert (Hc : consistent once_highlighted)
    by (apply highlight_point_consistent, no_highlights_consistent).
  assert (Hrun : run_events [PopupClosed 7; PopupClosed 7]
                   (highlight_point (F64.of_Z 1) (F64.of_Z 2) "s" 7 once_highlighted)
                 = Some (Highlights
                           {[ 1%positive := Line2D (F64.of_Z 1) (F64.of_Z 2) "^" ]}
                           ∅ 3%positive)) by reflexivity.
  split; [exact Hc|]. split; [reflexivity|]. split; [reflexivity|].
  split; [exact Hrun|].
  exact (rehighlighting_orphans_earlier_line (F64.of_Z 1) (F64.of_Z 2) "s" 7
           once_highlighted _
           1%positive _ [PopupClosed 7; PopupClosed 7] Hc eq_refl eq_refl Hrun).
Defined.

(** * From the clicked row to the popup's row *)



